(** * Verification of the claude-desktop-mcp shell, filesystem and arxiv servers

    Shallow embedding of [src/unnamed/part_000] (the shell server:
    [getShellEnv], [run_command], [get_env]) and of [src/src/arxiv.ts]:
    its filesystem server ([normalizePath], [list_files], [read_file],
    [write_file], [edit_file], [delete_file]) and its arxiv server
    ([ArxivManager] and the tools [arxiv_fetch] and [arxiv_get_cached]).

    JavaScript strings are sequences of UTF-16 code units; they are
    modelled as [list Z].  Node's [path] module (posix flavour), the
    [fs] calls, [Buffer]'s UTF-8 conversion and the child-process events
    are external collaborators and are modelled from their documented
    behaviour. *)

From Stdlib Require Import ZArith QArith List String Ascii Lia.
From stdpp Require Import base gmap list.

Import ListNotations.
Local Open Scope Z_scope.

(** ** JavaScript strings *)

Abbreviation jstr := (list Z).

(** A string literal of the source (all of them are ASCII). *)
Definition lit (s : string) : jstr :=
  map (fun c => Z.of_nat (nat_of_ascii c)) (list_ascii_of_string s).
Arguments lit _%_string.

Definition jstr_eqb (a b : jstr) : bool :=
  bool_decide (a = b).

(** [String.prototype.startsWith]. *)
Fixpoint startsWith (s prefix : jstr) : bool :=
  match prefix, s with
  | [], _ => true
  | p :: ps, c :: cs => (p =? c) && startsWith cs ps
  | _ :: _, [] => false
  end.

(** JavaScript truthiness of a string: [s || d]. *)
Definition str_or (s d : jstr) : jstr :=
  match s with [] => d | _ => s end.

Definition SLASH : Z := 47.
Definition DOT : Z := 46.

(** [`${n}`] for an integral number below [10^21] in absolute value, as
    exit codes, counts and indices are. *)
Fixpoint dec_digits (fuel : nat) (n : Z) (acc : jstr) : jstr :=
  match fuel with
  | O => (48 + n mod 10) :: acc
  | S f =>
      if n <? 10 then (48 + n) :: acc
      else dec_digits f (n / 10) ((48 + n mod 10) :: acc)
  end.

Definition num_str (n : Z) : jstr :=
  let a := Z.abs n in
  let ds := dec_digits (S (Z.to_nat (Z.log2 a))) a [] in
  if n <? 0 then 45 :: ds else ds.

(** ** Node's [path] module, posix flavour *)

Fixpoint split_on (sep : Z) (s : jstr) : list jstr :=
  match s with
  | [] => [[]]
  | c :: s' =>
      let rest := split_on sep s' in
      if c =? sep then [] :: rest
      else match rest with
           | r :: rs => (c :: r) :: rs
           | [] => [[c]]
           end
  end.

Fixpoint join_with (sep : Z) (l : list jstr) : jstr :=
  match l with
  | [] => []
  | [x] => x
  | x :: xs => x ++ [sep] ++ join_with sep xs
  end.

(** [Array.prototype.join] on an array of strings. *)
Fixpoint join_str (sep : jstr) (l : list jstr) : jstr :=
  match l with
  | [] => []
  | [x] => x
  | x :: xs => x ++ sep ++ join_str sep xs
  end.

(** One segment of [normalizeString]: empty and ["."] segments vanish,
    [".."] removes the last kept segment unless that is itself [".."];
    above the start it is kept only when [allowAboveRoot]. *)
Definition norm_step (allowAboveRoot : bool) (stack : list jstr) (seg : jstr)
  : list jstr :=
  if jstr_eqb seg [] || jstr_eqb seg [DOT] then stack
  else if jstr_eqb seg [DOT; DOT] then
    match stack with
    | top :: rest =>
        if jstr_eqb top [DOT; DOT]
        then (if allowAboveRoot then [DOT; DOT] :: stack else stack)
        else rest
    | [] => if allowAboveRoot then [[DOT; DOT]] else []
    end
  else seg :: stack.

Definition normalizeString (p : jstr) (allowAboveRoot : bool) : jstr :=
  join_with SLASH (rev (fold_left (norm_step allowAboveRoot) (split_on SLASH p) [])).

Definition isAbsolute (p : jstr) : bool :=
  match p with c :: _ => c =? SLASH | [] => false end.

Definition last_is_slash (p : jstr) : bool :=
  match rev p with c :: _ => c =? SLASH | [] => false end.

(** [path.normalize]. *)
Definition path_normalize (p : jstr) : jstr :=
  match p with
  | [] => [DOT]
  | _ =>
      let abs := isAbsolute p in
      let trailing := last_is_slash p in
      let q := normalizeString p (negb abs) in
      match q with
      | [] => if abs then [SLASH] else if trailing then [DOT; SLASH] else [DOT]
      | _ =>
          let q' := if trailing then q ++ [SLASH] else q in
          if abs then SLASH :: q' else q'
      end
  end.

(** The right-to-left loop of [path.resolve]: prepend arguments until an
    absolute one has been prepended; empty arguments are skipped. *)
Fixpoint resolve_loop (args_rev : list jstr) (resolved : jstr) : jstr * bool :=
  match args_rev with
  | [] => (resolved, false)
  | p :: ps =>
      match p with
      | [] => resolve_loop ps resolved
      | _ =>
          let r := p ++ [SLASH] ++ resolved in
          if isAbsolute p then (r, true) else resolve_loop ps r
      end
  end.

(** [path.resolve(...args)]; [cwd] is [process.cwd()]. *)
Definition path_resolve (cwd : jstr) (args : list jstr) : jstr :=
  let '(r, abs) := resolve_loop (rev args ++ [cwd]) [] in
  let q := normalizeString r (negb abs) in
  if abs then SLASH :: q
  else match q with [] => [DOT] | _ => q end.

(** [path.join(...args)]. *)
Definition path_join (args : list jstr) : jstr :=
  match filter (fun a => negb (jstr_eqb a [])) args with
  | [] => [DOT]
  | xs => path_normalize (join_with SLASH xs)
  end.

(** ** Exceptions *)

(** A computation that either returns or throws an [Error] whose
    [message] is given. *)
Inductive exc (A : Type) : Type :=
| Ok (a : A)
| Throw (message : jstr).
Arguments Ok {A} a.
Arguments Throw {A} message.

(** ** The confinement check *)

Section Confinement.

Variable cwd : jstr.
Variable baseDir : jstr.

(** [normalizePath] of [src/src/arxiv.ts]. *)
Definition normalizePath (filePath : jstr) : exc jstr :=
  let normalizedPath := path_normalize (path_resolve cwd [baseDir; filePath]) in
  if negb (startsWith normalizedPath baseDir)
  then Throw (lit "Access denied: " ++ filePath ++ lit " is outside the base directory")
  else Ok normalizedPath.

End Confinement.

(** ** UTF-16 and UTF-8 *)

Definition is_high (u : Z) : bool := (55296 <=? u) && (u <=? 56319).
Definition is_low (u : Z) : bool := (56320 <=? u) && (u <=? 57343).

(** The code points of a JavaScript string; an unpaired surrogate becomes
    U+FFFD, as V8 does when it writes a string out as UTF-8. *)
Fixpoint code_points (s : jstr) : list Z :=
  match s with
  | [] => []
  | u :: s' =>
      if is_high u then
        match s' with
        | l :: s'' =>
            if is_low l then (65536 + (u - 55296) * 1024 + (l - 56320)) :: code_points s''
            else 65533 :: code_points s'
        | [] => [65533]
        end
      else if is_low u then 65533 :: code_points s'
      else u :: code_points s'
  end.

(** UTF-8 bytes of one scalar value. *)
Definition utf8_of_cp (cp : Z) : list Z :=
  if cp <? 128 then [cp]
  else if cp <? 2048 then [192 + cp / 64; 128 + cp mod 64]
  else if cp <? 65536 then
    [224 + cp / 4096; 128 + (cp / 64) mod 64; 128 + cp mod 64]
  else
    [240 + cp / 262144; 128 + (cp / 4096) mod 64; 128 + (cp / 64) mod 64;
     128 + cp mod 64].

(** [Buffer.from(s, 'utf8')], used by [fs.writeFileSync(p, s, 'utf8')]. *)
Definition utf8_encode (s : jstr) : list Z := flat_map utf8_of_cp (code_points s).

(** The WHATWG UTF-8 decoder: bytes still needed, code point so far,
    and the bounds of the next continuation byte.  ([cp * 64 + b mod 64]
    is [(cp << 6) | (b & 0x3F)] of the standard.) *)
Record dec_state := mk_dec { d_needed : Z; d_cp : Z; d_lower : Z; d_upper : Z }.

Definition dec_init : dec_state := mk_dec 0 0 128 191.

Definition dec_first (b : Z) : list Z * dec_state :=
  if b <=? 127 then ([b], dec_init)
  else if (194 <=? b) && (b <=? 223) then ([], mk_dec 1 (b mod 32) 128 191)
  else if (224 <=? b) && (b <=? 239) then
    ([], mk_dec 2 (b mod 16) (if b =? 224 then 160 else 128)
                             (if b =? 237 then 159 else 191))
  else if (240 <=? b) && (b <=? 244) then
    ([], mk_dec 3 (b mod 8) (if b =? 240 then 144 else 128)
                            (if b =? 244 then 143 else 191))
  else ([65533], dec_init).

Definition dec_step (st : dec_state) (b : Z) : list Z * dec_state :=
  if d_needed st =? 0 then dec_first b
  else if negb ((d_lower st <=? b) && (b <=? d_upper st)) then
    (* error: the byte is processed again from the initial state *)
    let '(out, st') := dec_first b in (65533 :: out, st')
  else
    let cp := d_cp st * 64 + b mod 64 in
    if d_needed st - 1 =? 0 then ([cp], dec_init)
    else ([], mk_dec (d_needed st - 1) cp 128 191).

Fixpoint dec_run (st : dec_state) (bs : list Z) : list Z :=
  match bs with
  | [] => if d_needed st =? 0 then [] else [65533]
  | b :: bs' => let '(out, st') := dec_step st b in out ++ dec_run st' bs'
  end.

Definition utf16_of_cp (cp : Z) : jstr :=
  if cp <? 65536 then [cp]
  else [55296 + (cp - 65536) / 1024; 56320 + (cp - 65536) mod 1024].

(** [buf.toString('utf8')], used by [fs.readFileSync(p, 'utf8')]. *)
Definition utf8_decode (bs : list Z) : jstr := flat_map utf16_of_cp (dec_run dec_init bs).

(** A string whose code units are all 16-bit and whose surrogates are
    all paired. *)
Fixpoint well_formed_utf16 (s : jstr) : bool :=
  match s with
  | [] => true
  | u :: s' =>
      (0 <=? u) && (u <=? 65535) &&
      (if is_high u then
         match s' with
         | l :: s'' => is_low l && well_formed_utf16 s''
         | [] => false
         end
       else negb (is_low u) && well_formed_utf16 s')
  end.

(** A JavaScript string: every code unit is a 16-bit value. *)
Definition js_string (s : jstr) : Prop := Forall (fun u => 0 <= u <= 65535) s.

(** [String.prototype.toWellFormed]: every surrogate that is not part of a
    high-low pair is replaced by U+FFFD. *)
Fixpoint toWellFormed (s : jstr) : jstr :=
  match s with
  | [] => []
  | u :: s' =>
      if is_high u then
        match s' with
        | l :: s'' =>
            if is_low l then u :: l :: toWellFormed s''
            else 65533 :: toWellFormed s'
        | [] => [65533]
        end
      else if is_low u then 65533 :: toWellFormed s'
      else u :: toWellFormed s'
  end.

(** ** The file system *)

Inductive node : Type :=
| File (bytes : list Z)
| Dir.

Abbreviation fsys := (gmap jstr node).

(** Computations of the filesystem tools: they read and update the file
    system and may throw. *)
Definition fsm (A : Type) : Type := fsys -> exc A * fsys.

Definition fs_ret {A} (a : A) : fsm A := fun fs => (Ok a, fs).
Definition fs_throw {A} (m : jstr) : fsm A := fun fs => (Throw m, fs).
Definition fs_bind {A B} (m : fsm A) (k : A -> fsm B) : fsm B :=
  fun fs => match m fs with
            | (Ok a, fs') => k a fs'
            | (Throw e, fs') => (Throw e, fs')
            end.
Definition fs_lift {A} (r : exc A) : fsm A :=
  fun fs => (r, fs).
(** [try { m } catch (error) { h(error.message) }] *)
Definition fs_catch {A} (m : fsm A) (h : jstr -> fsm A) : fsm A :=
  fun fs => match m fs with
            | (Ok a, fs') => (Ok a, fs')
            | (Throw e, fs') => h e fs'
            end.

Notation "'let*' x := m 'in' k" := (fs_bind m (fun x => k))
  (at level 200, x name, m at level 100, k at level 200).

(** [path.dirname] (posix): the slice before the last separator that
    precedes a non-separator character, ignoring index 0. *)
Fixpoint dirname_scan (r : list Z) (i : nat) (matchedSlash : bool) : option nat :=
  match r with
  | [] => None
  | c :: r' =>
      if c =? SLASH then
        (if matchedSlash then dirname_scan r' (pred i) matchedSlash else Some i)
      else dirname_scan r' (pred i) false
  end.

Definition path_dirname (p : jstr) : jstr :=
  match p with
  | [] => [DOT]
  | c0 :: rest =>
      let hasRoot := c0 =? SLASH in
      match dirname_scan (rev rest) (length rest) true with
      | None => if hasRoot then [SLASH] else [DOT]
      | Some e =>
          if hasRoot && Nat.eqb e 1 then [SLASH; SLASH] else firstn e p
      end
  end.

Definition enoent (syscall p : jstr) : jstr :=
  lit "ENOENT: no such file or directory, " ++ syscall ++ lit " '" ++ p ++ lit "'".
Definition eisdir (syscall p : jstr) : jstr :=
  lit "EISDIR: illegal operation on a directory, " ++ syscall ++ lit " '" ++ p ++ lit "'".
Definition enotdir (syscall p : jstr) : jstr :=
  lit "ENOTDIR: not a directory, " ++ syscall ++ lit " '" ++ p ++ lit "'".

Definition exists_in (fs : fsys) (p : jstr) : bool := bool_decide (is_Some (fs !! p)).

(** [fs.existsSync]. *)
Definition existsSync (p : jstr) : fsm bool :=
  fun fs => (Ok (exists_in fs p), fs).

(** [fs.statSync(p).isFile()]. *)
Definition statSync_isFile (p : jstr) : fsm bool :=
  fun fs => match fs !! p with
            | Some (File _) => (Ok true, fs)
            | Some Dir => (Ok false, fs)
            | None => (Throw (enoent (lit "stat") p), fs)
            end.

(** [fs.statSync(p).isDirectory()]. *)
Definition statSync_isDirectory (p : jstr) : fsm bool :=
  fun fs => match fs !! p with
            | Some (File _) => (Ok false, fs)
            | Some Dir => (Ok true, fs)
            | None => (Throw (enoent (lit "stat") p), fs)
            end.

(** [fs.readFileSync(p, 'utf8')]. *)
Definition readFileSync (p : jstr) : fsm jstr :=
  fun fs => match fs !! p with
            | Some (File b) => (Ok (utf8_decode b), fs)
            (* Node's message for a [read] on a directory names no path *)
            | Some Dir => (Throw (lit "EISDIR: illegal operation on a directory, read"), fs)
            | None => (Throw (enoent (lit "open") p), fs)
            end.

(** [fs.writeFileSync(p, content, 'utf8')]: open with [O_CREAT|O_TRUNC]. *)
Definition writeFileSync (p : jstr) (content : jstr) : fsm unit :=
  fun fs => match fs !! p with
            | Some Dir => (Throw (eisdir (lit "open") p), fs)
            | Some (File _) => (Ok tt, <[p := File (utf8_encode content)]> fs)
            | None =>
                match fs !! path_dirname p with
                | Some Dir => (Ok tt, <[p := File (utf8_encode content)]> fs)
                | Some (File _) => (Throw (enotdir (lit "open") p), fs)
                | None => (Throw (enoent (lit "open") p), fs)
                end
            end.

Fixpoint mkdirp_segs (cur : jstr) (segs : list jstr) : fsm unit :=
  match segs with
  | [] => fs_ret tt
  | sg :: segs' =>
      let q := cur ++ [SLASH] ++ sg in
      fun fs => match fs !! q with
                | Some (File _) => (Throw (enotdir (lit "mkdir") q), fs)
                | Some Dir => mkdirp_segs q segs' fs
                | None => mkdirp_segs q segs' (<[q := Dir]> fs)
                end
  end.

(** [fs.mkdirSync(p, { recursive: true })] on an absolute normalized path. *)
Definition mkdirSync_recursive (p : jstr) : fsm unit :=
  mkdirp_segs [] (filter (fun sg => negb (jstr_eqb sg [])) (split_on SLASH p)).

(** [fs.unlinkSync]: [unlink(2)] refuses a directory with [EISDIR] on
    Linux. *)
Definition unlinkSync (p : jstr) : fsm unit :=
  fun fs => match fs !! p with
            | Some (File _) => (Ok tt, delete p fs)
            | Some Dir => (Throw (eisdir (lit "unlink") p), fs)
            | None => (Throw (enoent (lit "unlink") p), fs)
            end.

(** [strcmp] order on the UTF-8 bytes of two names: [fs.readdirSync] gets
    the entries from libuv's [scandir], which sorts them with [strcmp]. *)
Fixpoint bytes_ltb (a b : list Z) : bool :=
  match a, b with
  | [], [] => false
  | [], _ :: _ => true
  | _ :: _, [] => false
  | x :: a', y :: b' => if x <? y then true else if y <? x then false else bytes_ltb a' b'
  end.

Definition name_ltb (a b : jstr) : bool := bytes_ltb (utf8_encode a) (utf8_encode b).

Fixpoint insert_name (x : jstr) (l : list jstr) : list jstr :=
  match l with
  | [] => [x]
  | y :: l' => if name_ltb x y then x :: l else y :: insert_name x l'
  end.

Definition sort_names (l : list jstr) : list jstr := fold_right insert_name [] l.

(** The name of [k] inside directory [dir], if [k] is an entry of [dir]. *)
Fixpoint strip_prefix (pre s : jstr) : option jstr :=
  match pre, s with
  | [], _ => Some s
  | a :: pre', b :: s' => if a =? b then strip_prefix pre' s' else None
  | _ :: _, [] => None
  end.

Definition child_name (dir k : jstr) : option jstr :=
  let pre := if jstr_eqb dir [SLASH] then [SLASH] else dir ++ [SLASH] in
  match strip_prefix pre k with
  | Some (c :: name) => if existsb (fun c => c =? SLASH) (c :: name) then None else Some (c :: name)
  | _ => None
  end.

(** [fs.readdirSync(dir)]. *)
Definition readdirSync (dir : jstr) : fsm (list jstr) :=
  fun fs => match fs !! dir with
            | Some Dir => (Ok (sort_names (omap (fun kv => child_name dir kv.1) (map_to_list fs))), fs)
            | Some (File _) => (Throw (enotdir (lit "scandir") dir), fs)
            | None => (Throw (enoent (lit "scandir") dir), fs)
            end.

(** [arr.forEach] with an accumulator threaded through the state. *)
Fixpoint fs_fold {A B : Type} (f : A -> B -> fsm A) (acc : A) (l : list B) : fsm A :=
  match l with
  | [] => fs_ret acc
  | x :: xs => let* acc' := f acc x in fs_fold f acc' xs
  end.

(** The common-prefix scan of [path.relative]: the index where [from] and
    [to] (without their leading separator) first differ, or the length of
    the shorter one, and the last common separator before it. *)
Fixpoint relative_scan (f t : jstr) (i : nat) (lastCommonSep : Z) : nat * Z :=
  match f, t with
  | a :: f', b :: t' =>
      if a =? b then relative_scan f' t' (S i) (if a =? SLASH then Z.of_nat i else lastCommonSep)
      else (i, lastCommonSep)
  | _, _ => (i, lastCommonSep)
  end.

(** The number of [..] segments: one for every separator of [from] after
    the common part, and one for its end. *)
Fixpoint up_count (r : jstr) : nat :=
  match r with
  | [] => 1
  | c :: r' => if c =? SLASH then S (up_count r') else up_count r'
  end.

(** [path.relative(from, to)] (posix); [cwd] is [process.cwd()]. *)
Definition path_relative (cwd from0 to0 : jstr) : jstr :=
  if jstr_eqb from0 to0 then [] else
  let from := path_resolve cwd [from0] in
  let to := path_resolve cwd [to0] in
  if jstr_eqb from to then [] else
  let fromEnd := length from in
  let fromLen := (fromEnd - 1)%nat in
  let toLen := (length to - 1)%nat in
  let len := Nat.min fromLen toLen in
  let '(i, last) := relative_scan (skipn 1 from) (skipn 1 to) 0 (-1) in
  let early :=
    if Nat.eqb i len then
      if Nat.ltb len toLen then
        if nth (1 + i) to 0 =? SLASH then inl (skipn (2 + i) to)
        else if Nat.eqb i 0 then inl (skipn (1 + i) to)
        else inr last
      else if Nat.ltb len fromLen then
        if nth (1 + i) from 0 =? SLASH then inr (Z.of_nat i)
        else if Nat.eqb i 0 then inr 0
        else inr last
      else inr last
    else inr last in
  match early with
  | inl r => r
  | inr lastCommonSep =>
      let start := Z.to_nat (2 + lastCommonSep) in
      let n := if Nat.leb start fromEnd then up_count (skipn start from) else 0%nat in
      join_with SLASH (repeat [DOT; DOT] n) ++ skipn (Z.to_nat (1 + lastCommonSep)) to
  end.

(** ** The filesystem server, [src/src/arxiv.ts] *)

Section FsServer.

Variable cwd : jstr.
Variable baseDir : jstr.

(** [diffLib.createPatch] of the [diff] package. *)
Variable createPatch : jstr -> jstr -> jstr -> jstr -> jstr -> jstr.

(** The [catch] blocks: every error thrown here is an [Error], so the
    ['An unknown error occurred ...'] branch is never taken. *)
Definition handle_error (prefix : jstr) : jstr -> fsm jstr :=
  fun message => fs_ret (prefix ++ message).

(** Tool [read_file]. *)
Definition read_file (filePath : jstr) : fsm jstr :=
  fs_catch
    (let* normalizedPath := fs_lift (normalizePath cwd baseDir filePath) in
     let* ex := existsSync normalizedPath in
     if negb ex then fs_ret (lit "Error: File '" ++ filePath ++ lit "' does not exist")
     else
       let* isFile := statSync_isFile normalizedPath in
       if negb isFile then fs_ret (lit "Error: '" ++ filePath ++ lit "' is not a file")
       else
         let* content := readFileSync normalizedPath in
         fs_ret content)
    (handle_error (lit "Error reading file: ")).

Definition write_success (filePath : jstr) : jstr :=
  lit "File '" ++ filePath ++ lit "' has been written successfully".

(** Tool [write_file]. *)
Definition write_file (filePath content : jstr) : fsm jstr :=
  fs_catch
    (let* normalizedPath := fs_lift (normalizePath cwd baseDir filePath) in
     let directory := path_dirname normalizedPath in
     let* ex := existsSync directory in
     let* _ := (if negb ex then mkdirSync_recursive directory else fs_ret tt) in
     let* _ := writeFileSync normalizedPath content in
     fs_ret (write_success filePath))
    (handle_error (lit "Error writing file: ")).

Definition edit_success (filePath diff : jstr) : jstr :=
  lit "File '" ++ filePath ++ lit "' has been edited successfully." ++ [10; 10]
  ++ lit "Changes:" ++ [10] ++ diff.

(** Tool [edit_file]. *)
Definition edit_file (filePath newContent : jstr) : fsm jstr :=
  fs_catch
    (let* normalizedPath := fs_lift (normalizePath cwd baseDir filePath) in
     let* ex := existsSync normalizedPath in
     if negb ex then fs_ret (lit "Error: File '" ++ filePath ++ lit "' does not exist")
     else
       let* oldContent := readFileSync normalizedPath in
       let diff := createPatch filePath oldContent newContent (lit "Old") (lit "New") in
       let* _ := writeFileSync normalizedPath newContent in
       fs_ret (edit_success filePath diff))
    (handle_error (lit "Error editing file: ")).

Definition delete_success (filePath : jstr) : jstr :=
  lit "File '" ++ filePath ++ lit "' has been deleted successfully".

(** Tool [delete_file]. *)
Definition delete_file (filePath : jstr) : fsm jstr :=
  fs_catch
    (let* normalizedPath := fs_lift (normalizePath cwd baseDir filePath) in
     let* ex := existsSync normalizedPath in
     if negb ex then fs_ret (lit "Error: File '" ++ filePath ++ lit "' does not exist")
     else
       let* isFile := statSync_isFile normalizedPath in
       if negb isFile then fs_ret (lit "Error: '" ++ filePath ++ lit "' is not a file")
       else
         let* _ := unlinkSync normalizedPath in
         fs_ret (delete_success filePath))
    (handle_error (lit "Error deleting file: ")).

(** [minimatch.default(file, pattern)] of the [minimatch] package. *)
Variable minimatch : jstr -> jstr -> bool.

(** [getAllFiles] of tool [list_files].  Each call descends one directory
    level; [fuel] bounds the depth, and [list_files] gives the number of
    entries of the file system, more levels than it has. *)
Fixpoint getAllFiles (fuel : nat) (dir : jstr) (filesList : list jstr) : fsm (list jstr) :=
  match fuel with
  | O => fs_ret filesList
  | S fuel' =>
      let* files := readdirSync dir in
      fs_fold (fun filesList file =>
                 let filePath := path_join [dir; file] in
                 let* isDir := statSync_isDirectory filePath in
                 if isDir then getAllFiles fuel' filePath filesList
                 else fs_ret (filesList ++ [path_relative cwd baseDir filePath]))
        filesList files
  end.

Definition not_a_directory (directory : jstr) : jstr :=
  lit "Error: Directory '" ++ directory ++ lit "' does not exist or is not a directory".

(** Tool [list_files]; [directory = '.'] applies when it is omitted. *)
Definition list_files (pattern : jstr) (directory_arg : option jstr) : fsm jstr :=
  let directory := default (lit ".") directory_arg in
  fs_catch
    (let* searchDir := fs_lift (normalizePath cwd baseDir directory) in
     let* ex := existsSync searchDir in
     let* isDir := (if negb ex then fs_ret false else statSync_isDirectory searchDir) in
     if negb ex || negb isDir then fs_ret (not_a_directory directory)
     else
       fun fs =>
         (let* allFiles := getAllFiles (size fs) searchDir [] in
          let matchingFiles := filter (fun file => minimatch file pattern) allFiles in
          match matchingFiles with
          | [] => fs_ret (lit "No files matching pattern '" ++ pattern ++ lit "' found in '"
                          ++ directory ++ lit "'")
          | _ => fs_ret (join_str [10] matchingFiles)
          end) fs)
    (handle_error (lit "Error listing files: ")).

End FsServer.


(** ** The shell server, [src/unnamed/part_000] *)

Abbreviation environment := (gmap jstr jstr).

Definition PATH : jstr := lit "PATH".
Definition COLON : Z := 58.

Section ShellServer.

Variable cwd : jstr.
Variable baseDir : jstr.
(** [os.homedir()]. *)
Variable homeDir : jstr.

(** The value [getShellEnv] gives to a missing [PATH]. *)
Definition default_PATH : jstr :=
  lit "/usr/local/bin:/usr/bin:/bin:/usr/sbin:/sbin"
  ++ [COLON] ++ path_join [homeDir; lit ".local/bin"]
  ++ [COLON] ++ path_join [homeDir; lit "bin"]
  ++ [COLON] ++ path_join [homeDir; lit ".nvm/current/bin"]
  ++ [COLON] ++ path_join [homeDir; lit ".bun/bin"]
  ++ [COLON] ++ path_join [homeDir; lit ".deno/bin"]
  ++ [COLON] ++ path_join [homeDir; lit ".cargo/bin"].

(** [!env.PATH]: [undefined] and the empty string are falsy. *)
Definition path_missing (env : environment) : bool :=
  match env !! PATH with
  | None => true
  | Some [] => true
  | Some _ => false
  end.

(** [getShellEnv], given [process.env]; [{ ...process.env }] is a copy. *)
Definition getShellEnv (processEnv : environment) : environment :=
  let env := processEnv in
  if path_missing env then <[PATH := default_PATH]> env else env.

(** Tool [get_env]. *)
Definition get_env (processEnv : environment) (name : jstr) : jstr :=
  let env := getShellEnv processEnv in
  match env !! name with
  | None => lit "Environment variable '" ++ name ++ lit "' is not set"
  | Some value => value
  end.

(** The checks of [run_command] before the [Promise] is created. *)
Inductive precheck : Type :=
| Reply (message : jstr)
| Spawn (cwd : jstr).

Definition run_command_check (fs : fsys) (workingDir : jstr) : precheck :=
  let cwd' := match workingDir with
              | [] => baseDir
              | _ => path_resolve cwd [baseDir; workingDir]
              end in
  if negb (startsWith cwd' baseDir) then
    Reply (lit "Error: Working directory must be within the base directory")
  else if negb (exists_in fs cwd') then
    Reply (lit "Error: Working directory '" ++ workingDir ++ lit "' does not exist")
  else Spawn cwd'.

End ShellServer.

(** *** The execution core of [run_command]

    After [spawn] the callbacks run on the events of the child: data on
    standard output or standard error, [close] with its exit code ([null]
    when the child was killed by a signal), [error], and the expiry of the
    timer.  The [Promise] keeps the first value passed to [resolve].  The
    model does not bound the length of the accumulated output; beyond
    the engine's maximum string length, [stdout += ...] throws a
    [RangeError] in the data callback. *)

(** A number as the [timeout] argument can carry it after [JSON.parse]
    and [z.number()]: a finite value (a double, hence a rational number)
    or an infinity ([1e400] parses to [Infinity]).  [z.number()] refuses
    [NaN]; [-0] behaves as [0] in everything the code does with it. *)
Inductive js_number : Type :=
| JsFinite (q : Q)
| JsInfinity
| JsNegInfinity.

(** [n > 0]. *)
Definition js_positive (n : js_number) : bool :=
  match n with
  | JsFinite q => negb (Qle_bool q 0)
  | JsInfinity => true
  | JsNegInfinity => false
  end.

(** [`${n}`] of a number: ECMAScript's [Number::toString], the shortest
    decimal digits that denote the double, in exponent form from [1e21]
    on ([1e+21]), ["Infinity"] for an infinity.  It is a primitive of the
    engine. *)
Class NumberToString := number_toString : js_number -> jstr.

Inductive proc_event : Type :=
| StdoutData (chunk : jstr)
| StderrData (chunk : jstr)
| Close (code : option Z)
| ErrorEvent (message : jstr)
| TimerExpires.

Record proc_state : Type := mk_proc {
  ps_stdout : jstr;
  ps_stderr : jstr;
  ps_timer : bool;              (* a timer is armed and not cleared *)
  ps_killed : bool;             (* [process.kill()] was called *)
  ps_result : option jstr       (* the value the promise resolved to *)
}.

Definition resolve (v : jstr) (st : proc_state) : proc_state :=
  match ps_result st with
  | None => mk_proc (ps_stdout st) (ps_stderr st) (ps_timer st) (ps_killed st) (Some v)
  | Some _ => st
  end.

Definition clear_timer (st : proc_state) : proc_state :=
  mk_proc (ps_stdout st) (ps_stderr st) false (ps_killed st) (ps_result st).

Definition code_str (code : option Z) : jstr :=
  match code with None => lit "null" | Some c => num_str c end.

Definition no_output : jstr := lit "Command executed successfully (no output)".

(** The value the [close] callback resolves with. *)
Definition close_result (code : option Z) (stdout stderr : jstr) : jstr :=
  match code with
  | Some 0 => str_or stdout no_output
  | _ =>
      let errorOutput := str_or stderr (str_or stdout (lit "No error output")) in
      lit "Command failed with exit code " ++ code_str code ++ lit ":" ++ [10] ++ errorOutput
  end.

Definition spawn_failure (message : jstr) : jstr :=
  lit "Failed to execute command: " ++ message.

(** State right after [spawn]: [if (timeout > 0)] arms the timer. *)
Definition proc_init (timeout : js_number) : proc_state :=
  mk_proc [] [] (js_positive timeout) false None.

(** [timeout = 30000] applies when the argument is omitted. *)
Definition effective_timeout (timeout : option js_number) : js_number :=
  match timeout with None => JsFinite (inject_Z 30000) | Some t => t end.



Fixpoint stdout_of (evs : list proc_event) : jstr :=
  match evs with
  | [] => []
  | StdoutData d :: evs' => d ++ stdout_of evs'
  | _ :: evs' => stdout_of evs'
  end.

Fixpoint stderr_of (evs : list proc_event) : jstr :=
  match evs with
  | [] => []
  | StderrData d :: evs' => d ++ stderr_of evs'
  | _ :: evs' => stderr_of evs'
  end.

Definition is_timer (e : proc_event) : bool :=
  match e with TimerExpires => true | _ => false end.


(** The events that can settle the call: [close], [error], and the timer
    when one was armed. *)
Definition terminal (timeout : js_number) (e : proc_event) : bool :=
  match e with
  | Close _ | ErrorEvent _ => true
  | TimerExpires => js_positive timeout
  | _ => false
  end.

Section ExecutionCore.

Context {toStr : NumberToString}.

Definition timeout_message (timeout : js_number) : jstr :=
  lit "Command timed out after " ++ number_toString timeout ++ lit "ms".

Definition on_event (timeout : js_number) (st : proc_state) (e : proc_event) : proc_state :=
  match e with
  | StdoutData d =>
      mk_proc (ps_stdout st ++ d) (ps_stderr st) (ps_timer st) (ps_killed st) (ps_result st)
  | StderrData d =>
      mk_proc (ps_stdout st) (ps_stderr st ++ d) (ps_timer st) (ps_killed st) (ps_result st)
  | TimerExpires =>
      (* a timer that was never armed, or was cleared, does not fire *)
      if ps_timer st then
        resolve (timeout_message timeout)
          (mk_proc (ps_stdout st) (ps_stderr st) false true (ps_result st))
      else st
  | Close code =>
      let st' := clear_timer st in
      resolve (close_result code (ps_stdout st') (ps_stderr st')) st'
  | ErrorEvent m =>
      resolve (spawn_failure m) (clear_timer st)
  end.

Definition run_events (timeout : js_number) (evs : list proc_event) : proc_state :=
  fold_left (on_event timeout) evs (proc_init timeout).


End ExecutionCore.

(** ** The arxiv server, [src/src/arxiv.ts] *)

(** The white space and line terminators [String.prototype.trim] removes. *)
Definition js_space (c : Z) : bool :=
  (c =? 9) || (c =? 10) || (c =? 11) || (c =? 12) || (c =? 13) || (c =? 32)
  || (c =? 160) || (c =? 5760) || ((8192 <=? c) && (c <=? 8202))
  || (c =? 8232) || (c =? 8233) || (c =? 8239) || (c =? 8287) || (c =? 12288)
  || (c =? 65279).

Fixpoint trim_start (s : jstr) : jstr :=
  match s with
  | c :: s' => if js_space c then trim_start s' else s
  | [] => []
  end.

(** [s.trim()]. *)
Definition trim (s : jstr) : jstr := rev (trim_start (rev (trim_start s))).

(** [s.replace(/\\n/g, ' ')]: the regular expression matches a backslash
    followed by the letter [n]. *)
Fixpoint replace_backslash_n (s : jstr) : jstr :=
  match s with
  | [] => []
  | c :: s' =>
      if c =? 92 then
        match s' with
        | d :: s'' => if d =? 110 then 32 :: replace_backslash_n s''
                      else c :: replace_backslash_n s'
        | [] => [c]
        end
      else c :: replace_backslash_n s'
  end.

(** [s.replace(/\\n/g, ' ').trim()], applied to titles and summaries. *)
Definition clean_text (s : jstr) : jstr := trim (replace_backslash_n s).

(** A date field of a paper: a [Date] object (its time value, [None] for
    an invalid date), or what [JSON.parse] gives back for it after
    [JSON.stringify]: a string, or [null]. *)
Inductive date_val : Type :=
| DateObj (time : option Z)
| DateStr (s : jstr)
| DateNull.

(** [ArxivPaper]. *)
Record paper : Type := mk_paper {
  p_id : jstr;
  p_title : jstr;
  p_summary : jstr;
  p_published : date_val;
  p_updated : date_val;
  p_authors : list jstr;
  p_link : jstr;
  p_pdfLink : jstr;
  p_categories : list jstr
}.

(** [FetchConfig]: every field is optional. *)
Record fetch_config : Type := mk_fetch_config {
  fc_searchQuery : option jstr;
  fc_maxResults : option Z;
  fc_sortBy : option jstr;
  fc_sortOrder : option jstr;
  fc_outputFile : option jstr
}.

(** [DEFAULT_CONFIG]; the manager is built without overrides. *)
Definition default_searchQuery : jstr := lit "cat:cs.AI+OR+cat:cs.CL+OR+cat:cs.LG+OR+cat:cs.NE".
Definition default_maxResults : Z := 100.
Definition default_outputFile : jstr := lit "arxiv-papers.xml".
Definition default_sortBy : jstr := lit "submittedDate".
Definition default_sortOrder : jstr := lit "descending".
Definition cacheExpiry : Z := 3600000.

(** [o || d] on an optional string and on an optional number: [undefined],
    the empty string and [0] are falsy. *)
Definition opt_str_or (o : option jstr) (d : jstr) : jstr := str_or (default [] o) d.

Definition opt_num_or (o : option Z) (d : Z) : Z :=
  match o with Some n => if n =? 0 then d else n | None => d end.

(** The query URL [fetchArxivPapers] requests. *)
Definition fetch_url (options : fetch_config) : jstr :=
  let searchQuery := opt_str_or (fc_searchQuery options) default_searchQuery in
  let maxResults := opt_num_or (fc_maxResults options) default_maxResults in
  let sortBy := opt_str_or (fc_sortBy options) default_sortBy in
  let sortOrder := opt_str_or (fc_sortOrder options) default_sortOrder in
  lit "http://export.arxiv.org/api/query?search_query=" ++ searchQuery
  ++ lit "&max_results=" ++ num_str maxResults
  ++ lit "&sortBy=" ++ sortBy ++ lit "&sortOrder=" ++ sortOrder.

(** xml2js with [explicitArray: false] gives a single child as itself and
    several as an array. *)
Inductive one_or_many (A : Type) : Type :=
| One (a : A)
| Many (l : list A).
Arguments One {A} a.
Arguments Many {A} l.

(** [Array.isArray(x) ? x : [x]]. *)
Definition as_list {A} (x : one_or_many A) : list A :=
  match x with One a => [a] | Many l => l end.

Record xml_author : Type := mk_author { author_name : jstr }.
Record xml_category : Type := mk_category { category_term : jstr }.
(** [link.$.title] and [link.$.href]. *)
Record xml_link : Type := mk_link { link_title : option jstr; link_href : option jstr }.

(** An [entry] element of the Atom feed, as xml2js parses it. *)
Record xml_entry : Type := mk_entry {
  e_id : jstr;
  e_title : jstr;
  e_summary : jstr;
  e_published : jstr;
  e_updated : jstr;
  e_author : one_or_many xml_author;
  e_category : one_or_many xml_category;
  e_link : one_or_many xml_link
}.

(** [links.find((link) => link.$.title === 'pdf')?.$.href || '']. *)
Definition pdf_link (links : list xml_link) : jstr :=
  match find (fun l => match link_title l with
                       | Some t => jstr_eqb t (lit "pdf")
                       | None => false
                       end) links with
  | Some l => str_or (default [] (link_href l)) []
  | None => []
  end.

(** The argument of [feed.addItem]. *)
Record feed_item : Type := mk_item {
  item_title : jstr;
  item_id : jstr;
  item_link : jstr;
  item_description : jstr;
  item_content : jstr;
  item_author : list jstr;      (* the [name] of each author *)
  item_date : date_val;
  item_category : list jstr     (* the [name] of each category *)
}.

Record cache_file : Type := mk_cache { cache_timestamp : Z; cache_data : list paper }.

(** [config.cacheDir], a path relative to [process.cwd()]. *)
Definition cacheDir : jstr := lit "./Users/takeshiiijima/github/claude-desktop-mcp/.cache".

(** [path.join(this.config.cacheDir, 'arxiv-papers.json')]. *)
Definition cache_file_path : jstr := path_join [cacheDir; lit "arxiv-papers.json"].

(** [fetchAndSaveRSS]'s result object. *)
Record rss_result : Type := mk_rss { success : bool; message : jstr; papersCount : Z }.

(** The arguments of tool [arxiv_fetch] once zod has applied its
    defaults. *)
Record fetch_args : Type := mk_fetch_args {
  search_query : option jstr;
  max_results : Z;
  sort_by : jstr;
  sort_order : jstr;
  output_file : jstr
}.

Definition no_papers_in_cache : jstr :=
  lit "No papers in cache. Use arxiv_fetch first to download papers.".

(** One entry of the [arxiv_get_cached] listing. *)
Definition cached_entry (index : Z) (p : paper) : jstr :=
  num_str (index + 1) ++ lit ". " ++ p_title p ++ [10]
  ++ lit "   Authors: " ++ join_str (lit ", ") (p_authors p) ++ [10]
  ++ lit "   Categories: " ++ join_str (lit ", ") (p_categories p) ++ [10]
  ++ lit "   Link: " ++ p_link p ++ [10].

(** [papers.map((paper, index) => ...)] from index [i] on. *)
Fixpoint cached_entries (i : Z) (ps : list paper) : list jstr :=
  match ps with
  | [] => []
  | p :: ps' => cached_entry i p :: cached_entries (i + 1) ps'
  end.

Section ArxivServer.

(** [Date.prototype.toISOString], which [JSON.stringify] uses for a valid
    date. *)
Variable toISOString : Z -> jstr.
(** [Date.prototype.toDateString] on a valid date. *)
Variable dateString : Z -> jstr.
(** The time value of [new Date(s)]; [None] for an invalid date. *)
Variable date_parse : jstr -> option Z.
(** The request [fetch(url)], the [response.ok] check and
    [parseStringPromise(xml, { explicitArray: false })]: [Throw] when one of
    them fails, [Ok None] when [result.feed] or [result.feed.entry] is
    missing, else the entries. *)
Variable arxiv_response : jstr -> exc (option (one_or_many xml_entry)).
(** [feed.rss2()] of the feed [generateRSSFeed] builds at time [now] with
    the given items. *)
Variable rss2 : Z -> list feed_item -> jstr.
(** [process.cwd()], against which relative paths are resolved. *)
Variable process_cwd : jstr.
(** [outputDirectory]: [values.outputDir || process.cwd()]. *)
Variable outputDir : jstr.
(** [JSON.stringify({ timestamp, data })], the text [saveToCache]
    writes. *)
Variable cache_json : Z -> list paper -> jstr.
(** [JSON.parse] of the text read from the cache file, seen as the object
    [{ timestamp, data }]: [None] when [JSON.parse] throws.  Text that
    parses to a value of another shape is beyond the model. *)
Variable cache_parse : jstr -> option cache_file.

(** The file system is keyed by absolute normalized paths; Node resolves
    a relative path against [process.cwd()]. *)
Definition fs_key (p : jstr) : jstr := path_resolve process_cwd [p].

(** [fs.existsSync(p)]. *)
Definition existsSync_rel (p : jstr) : fsm bool := existsSync (fs_key p).

(** [fs.writeFileSync(p, content)]: as [writeFileSync] on the resolved
    path, with Node's messages naming the path as given. *)
Definition writeFileSync_rel (p : jstr) (content : jstr) : fsm unit :=
  let k := fs_key p in
  fun fs => match fs !! k with
            | Some Dir => (Throw (eisdir (lit "open") p), fs)
            | Some (File _) => (Ok tt, <[k := File (utf8_encode content)]> fs)
            | None =>
                match fs !! path_dirname k with
                | Some Dir => (Ok tt, <[k := File (utf8_encode content)]> fs)
                | Some (File _) => (Throw (enotdir (lit "open") p), fs)
                | None => (Throw (enoent (lit "open") p), fs)
                end
            end.

(** [ArxivManager.loadFromCache] at time [now] ([Date.now()]).  It only
    reads, and its [catch] turns every exception of [readFileSync] and
    [JSON.parse] into [null]. *)
Definition loadFromCache (now : Z) (fs : fsys) : option (list paper) :=
  let filePath := cache_file_path in
  if negb (exists_in fs (fs_key filePath)) then None
  else
    match readFileSync (fs_key filePath) fs with
    | (Throw _, _) => None
    | (Ok content, _) =>
        match cache_parse content with
        | None => None
        | Some cache =>
            if now - cache_timestamp cache >? cacheExpiry then None
            else Some (cache_data cache)
        end
    end.

(** Tool [arxiv_get_cached] at time [now]: its text and its [isError]. *)
Definition arxiv_get_cached (now : Z) (fs : fsys) : jstr * bool :=
  match loadFromCache now fs with
  | None | Some [] => (no_papers_in_cache, true)
  | Some papers =>
      (lit "Found " ++ num_str (Z.of_nat (length papers)) ++ lit " papers in cache:" ++ [10; 10]
       ++ join_str [10] (cached_entries 0 papers), false)
  end.

(** The paper [fetchArxivPapers] builds from an entry. *)
Definition entry_paper (entry : xml_entry) : paper :=
  mk_paper (e_id entry)
    (clean_text (e_title entry))
    (clean_text (e_summary entry))
    (DateObj (date_parse (e_published entry)))
    (DateObj (date_parse (e_updated entry)))
    (map author_name (as_list (e_author entry)))
    (e_id entry)
    (pdf_link (as_list (e_link entry)))
    (map category_term (as_list (e_category entry))).

(** [ArxivManager.fetchArxivPapers]; its [catch] returns [[]]. *)
Definition fetchArxivPapers (options : fetch_config) : list paper :=
  match arxiv_response (fetch_url options) with
  | Ok (Some entries) => map entry_paper (as_list entries)
  | Ok None => []
  | Throw _ => []
  end.

(** [JSON.parse(JSON.stringify(d))] for a date field: [Date.prototype.toJSON]
    gives the ISO string of a valid date and [null] for an invalid one. *)
Definition date_json (d : date_val) : date_val :=
  match d with
  | DateObj (Some t) => DateStr (toISOString t)
  | DateObj None => DateNull
  | DateStr s => DateStr s
  | DateNull => DateNull
  end.

(** A paper as [JSON.parse] gives it back after [JSON.stringify]. *)
Definition paper_json (p : paper) : paper :=
  mk_paper (p_id p) (p_title p) (p_summary p)
    (date_json (p_published p)) (date_json (p_updated p))
    (p_authors p) (p_link p) (p_pdfLink p) (p_categories p).

(** [ArxivManager.saveToCache] at time [now]. *)
Definition saveToCache (now : Z) (data : list paper) : fsm unit :=
  writeFileSync_rel cache_file_path (cache_json now data).

(** [paper.published.toDateString()]. *)
Definition call_toDateString (d : date_val) : exc jstr :=
  match d with
  | DateObj (Some t) => Ok (dateString t)
  | DateObj None => Ok (lit "Invalid Date")
  | DateStr _ => Throw (lit "paper.published.toDateString is not a function")
  | DateNull => Throw (lit "Cannot read properties of null (reading 'toDateString')")
  end.

Definition indent6 : jstr := lit "      ".

(** [ArxivManager.generateHTMLContent]. *)
Definition generateHTMLContent (p : paper) : exc jstr :=
  match call_toDateString (p_published p) with
  | Throw m => Throw m
  | Ok published =>
      Ok ([10] ++ indent6 ++ lit "<h2>" ++ p_title p ++ lit "</h2>" ++ [10]
          ++ indent6 ++ lit "<p><strong>Authors:</strong> "
          ++ join_str (lit ", ") (p_authors p) ++ lit "</p>" ++ [10]
          ++ indent6 ++ lit "<p><strong>Published:</strong> " ++ published ++ lit "</p>" ++ [10]
          ++ indent6 ++ lit "<p><strong>Categories:</strong> "
          ++ join_str (lit ", ") (p_categories p) ++ lit "</p>" ++ [10]
          ++ indent6 ++ lit "<p><strong>Links:</strong> <a href=" ++ [34] ++ p_link p ++ [34]
          ++ lit ">Abstract</a> | <a href=" ++ [34] ++ p_pdfLink p ++ [34]
          ++ lit ">PDF</a></p>" ++ [10]
          ++ indent6 ++ lit "<h3>Abstract</h3>" ++ [10]
          ++ indent6 ++ lit "<p>" ++ p_summary p ++ lit "</p>" ++ [10]
          ++ lit "    ")
  end.

(** The items [generateRSSFeed] adds, in order; the [forEach] stops at
    the first exception. *)
Fixpoint feed_items (papers : list paper)
  : exc (list feed_item) :=
  match papers with
  | [] => Ok []
  | p :: ps =>
      match generateHTMLContent p with
      | Throw m => Throw m
      | Ok content =>
          match feed_items ps with
          | Throw m => Throw m
          | Ok items =>
              Ok (mk_item (p_title p) (p_id p) (p_link p) (p_summary p) content
                    (p_authors p) (p_published p) (p_categories p) :: items)
          end
      end
  end.

(** [generateRSSFeed(papers).rss2()] at time [now]. *)
Definition rss_content (now : Z) (papers : list paper) : exc jstr :=
  match feed_items papers with
  | Throw m => Throw m
  | Ok items => Ok (rss2 now items)
  end.

(** The output part of [fetchAndSaveRSS]: create the output directory if
    needed and write the feed.  ([mkdirSync] is taken on the resolved
    directory; its messages name the resolved path.) *)
Definition write_output (outputPath rssContent : jstr) : fsm unit :=
  let* ex := existsSync_rel outputDir in
  let* _ := (if negb ex then mkdirSync_recursive (fs_key outputDir) else fs_ret tt) in
  writeFileSync_rel outputPath rssContent.

(** [ArxivManager.fetchAndSaveRSS] at time [now] ([Date.now()] and
    [new Date()] of one call are taken as the same instant); the [catch]
    gives [Error: <message>]. *)
Definition fetchAndSaveRSS (now : Z) (options : fetch_config) (fs : fsys)
  : rss_result * fsys :=
  let loaded :=
    match loadFromCache now fs with
    | Some papers => inl (papers, fs)
    | None =>
        let papers := fetchArxivPapers options in
        if 0 <? Z.of_nat (length papers) then
          match saveToCache now papers fs with
          | (Ok _, fs1) => inl (papers, fs1)
          | (Throw m, fs1) => inr (mk_rss false (lit "Error: " ++ m) 0, fs1)
          end
        else inr (mk_rss false (lit "No papers fetched from Arxiv") 0, fs)
    end in
  match loaded with
  | inr r => r
  | inl (papers, fs1) =>
      if 0 <? Z.of_nat (length papers) then
        match rss_content now papers with
        | Throw m => (mk_rss false (lit "Error: " ++ m) 0, fs1)
        | Ok rssContent =>
            let outputFile := opt_str_or (fc_outputFile options) default_outputFile in
            let outputPath := path_join [outputDir; outputFile] in
            match write_output outputPath rssContent fs1 with
            | (Ok _, fs2) =>
                (mk_rss true (lit "RSS feed saved to " ++ outputPath) (Z.of_nat (length papers)),
                 fs2)
            | (Throw m, fs2) => (mk_rss false (lit "Error: " ++ m) 0, fs2)
            end
        end
      else (mk_rss false (lit "No papers to process") 0, fs1)
  end.

(** Tool [arxiv_fetch] at time [now]: its text and its [isError]. *)
Definition arxiv_fetch (now : Z) (args : fetch_args) (fs : fsys)
  : (jstr * bool) * fsys :=
  let '(result, fs') :=
    fetchAndSaveRSS now
      (mk_fetch_config (search_query args) (Some (max_results args))
         (Some (sort_by args)) (Some (sort_order args)) (Some (output_file args))) fs in
  if negb (success result) then ((message result, true), fs')
  else ((message result ++ [10] ++ lit "Processed " ++ num_str (papersCount result)
         ++ lit " papers.", false), fs').

End ArxivServer.

(** * Proofs *)

(** [lia] on [/] and [mod] by constants. *)
Ltac zlia := Z.div_mod_to_equations; lia.

(** ** UTF-8 round trip *)

Definition scalar_value (cp : Z) : Prop :=
  0 <= cp <= 1114111 /\ ~ (55296 <= cp <= 57343).

Lemma dec_run_cons (st : dec_state) (b : Z) (bs : list Z) :
  dec_run st (b :: bs) = fst (dec_step st b) ++ dec_run (snd (dec_step st b)) bs.
Proof. simpl. destruct (dec_step st b). reflexivity. Qed.

Lemma dec_step_init (b : Z) : dec_step dec_init b = dec_first b.
Proof. reflexivity. Qed.

Lemma dec_first_one (b : Z) : b <= 127 -> dec_first b = ([b], dec_init).
Proof. intros H. unfold dec_first. destruct (Z.leb_spec b 127); [reflexivity | lia]. Qed.

Lemma dec_first_two (b : Z) :
  194 <= b <= 223 -> dec_first b = ([], mk_dec 1 (b mod 32) 128 191).
Proof.
  intros H. unfold dec_first.
  destruct (Z.leb_spec b 127); [lia |].
  destruct (Z.leb_spec 194 b); [| lia]. destruct (Z.leb_spec b 223); [| lia].
  reflexivity.
Qed.

Lemma dec_first_three (b : Z) :
  224 <= b <= 239 ->
  dec_first b = ([], mk_dec 2 (b mod 16) (if b =? 224 then 160 else 128)
                                         (if b =? 237 then 159 else 191)).
Proof.
  intros H. unfold dec_first.
  destruct (Z.leb_spec b 127); [lia |].
  destruct (Z.leb_spec 194 b); [| lia]. destruct (Z.leb_spec b 223); [lia |].
  destruct (Z.leb_spec 224 b); [| lia]. destruct (Z.leb_spec b 239); [| lia].
  reflexivity.
Qed.

Lemma dec_first_four (b : Z) :
  240 <= b <= 244 ->
  dec_first b = ([], mk_dec 3 (b mod 8) (if b =? 240 then 144 else 128)
                                        (if b =? 244 then 143 else 191)).
Proof.
  intros H. unfold dec_first.
  destruct (Z.leb_spec b 127); [lia |].
  destruct (Z.leb_spec 194 b); [| lia]. destruct (Z.leb_spec b 223); [lia |].
  destruct (Z.leb_spec 224 b); [| lia]. destruct (Z.leb_spec b 239); [lia |].
  destruct (Z.leb_spec 240 b); [| lia]. destruct (Z.leb_spec b 244); [| lia].
  reflexivity.
Qed.

Lemma dec_step_cont (n c lo hi b : Z) :
  n <> 0 -> lo <= b <= hi ->
  dec_step (mk_dec n c lo hi) b =
  (if n - 1 =? 0 then ([c * 64 + b mod 64], dec_init)
   else ([], mk_dec (n - 1) (c * 64 + b mod 64) 128 191)).
Proof.
  intros Hn Hb. unfold dec_step; cbn [d_needed d_cp d_lower d_upper].
  destruct (Z.eqb_spec n 0); [lia |].
  destruct (Z.leb_spec lo b); [| lia]. destruct (Z.leb_spec b hi); [| lia].
  reflexivity.
Qed.

Lemma if_eqb_le (x k v1 v2 : Z) (P : Z -> Prop) :
  (x = k -> P v1) -> (x <> k -> P v2) -> P (if x =? k then v1 else v2).
Proof. intros H1 H2. destruct (Z.eqb_spec x k); auto. Qed.

Lemma dec_run_utf8_of_cp (cp : Z) (rest : list Z) :
  scalar_value cp ->
  dec_run dec_init (utf8_of_cp cp ++ rest) = cp :: dec_run dec_init rest.
Proof.
  intros [Hr Hs]. unfold utf8_of_cp.
  destruct (Z.ltb_spec cp 128).
  { cbn [app]. rewrite dec_run_cons, dec_step_init, dec_first_one by zlia.
    reflexivity. }
  destruct (Z.ltb_spec cp 2048).
  { cbn [app]. rewrite dec_run_cons, dec_step_init, dec_first_two by zlia.
    cbn [fst snd app].
    rewrite dec_run_cons, dec_step_cont by zlia. cbn [fst snd app].
    replace ((192 + cp / 64) mod 32 * 64 + (128 + cp mod 64) mod 64) with cp by zlia.
    reflexivity. }
  destruct (Z.ltb_spec cp 65536).
  { cbn [app]. rewrite dec_run_cons, dec_step_init, dec_first_three by zlia.
    cbn [fst snd app].
    rewrite dec_run_cons, dec_step_cont; cycle 1; [zlia | | ].
    - split.
      + apply (if_eqb_le _ _ _ _ (fun v => v <= _)); zlia.
      + apply (if_eqb_le _ _ _ _ (fun v => _ <= v)); zlia.
    - cbn [fst snd app]. replace (2 - 1 =? 0) with false by reflexivity.
      cbn [fst snd app].
      rewrite dec_run_cons, dec_step_cont by zlia. cbn [fst snd app].
      replace (((224 + cp / 4096) mod 16 * 64 + (128 + cp / 64 mod 64) mod 64) * 64
               + (128 + cp mod 64) mod 64) with cp by zlia.
      reflexivity. }
  cbn [app]. rewrite dec_run_cons, dec_step_init, dec_first_four by zlia.
  cbn [fst snd app].
  rewrite dec_run_cons, dec_step_cont; cycle 1; [zlia | | ].
  - split.
    + apply (if_eqb_le _ _ _ _ (fun v => v <= _)); zlia.
    + apply (if_eqb_le _ _ _ _ (fun v => _ <= v)); zlia.
  - cbn [fst snd app]. replace (3 - 1 =? 0) with false by reflexivity.
    cbn [fst snd app].
    rewrite dec_run_cons, dec_step_cont by zlia. cbn [fst snd app].
    replace (3 - 1 - 1 =? 0) with false by reflexivity. cbn [fst snd app].
    rewrite dec_run_cons, dec_step_cont by zlia. cbn [fst snd app].
    replace ((((240 + cp / 262144) mod 8 * 64 + (128 + cp / 4096 mod 64) mod 64) * 64
              + (128 + cp / 64 mod 64) mod 64) * 64 + (128 + cp mod 64) mod 64)
      with cp by zlia.
    reflexivity.
Qed.

Lemma dec_run_utf8 (cps : list Z) :
  Forall scalar_value cps -> dec_run dec_init (flat_map utf8_of_cp cps) = cps.
Proof.
  induction 1 as [|cp cps Hcp _ IH]; [reflexivity |].
  cbn [flat_map]. rewrite dec_run_utf8_of_cp by exact Hcp. f_equal. exact IH.
Qed.

Ltac leb_cases :=
  repeat match goal with
  | H : context [?a <=? ?b] |- _ => destruct (Z.leb_spec a b)
  | |- context [?a <=? ?b] => destruct (Z.leb_spec a b)
  end; cbn [andb negb] in *.

Lemma code_points_well_formed (n : nat) (s : jstr) :
  (length s <= n)%nat -> well_formed_utf16 s = true ->
  Forall scalar_value (code_points s) /\ flat_map utf16_of_cp (code_points s) = s.
Proof.
  revert s; induction n as [|n IH]; intros s Hlen Hwf.
  - destruct s; [split; [constructor | reflexivity] | simpl in Hlen; lia].
  - destruct s as [|u s']; [split; [constructor | reflexivity] |].
    cbn [length] in Hlen. cbn [well_formed_utf16] in Hwf. cbn [code_points].
    apply andb_true_iff in Hwf as [Hrange Hwf].
    apply andb_true_iff in Hrange as [Hu0 Hu1]. apply Z.leb_le in Hu0, Hu1.
    destruct (is_high u) eqn:Hh.
    + (* a high surrogate followed by a low one *)
      destruct s' as [|l s'']; [discriminate |].
      apply andb_true_iff in Hwf as [Hl Hs''].
      rewrite Hl. cbn [length] in Hlen.
      unfold is_high, is_low in Hh, Hl.
      apply andb_true_iff in Hh as [Hh0 Hh1]. apply andb_true_iff in Hl as [Hl0 Hl1].
      apply Z.leb_le in Hh0, Hh1, Hl0, Hl1.
      destruct (IH s'' ltac:(lia) Hs'') as [Hv Heq].
      split.
      * constructor; [unfold scalar_value; lia | exact Hv].
      * cbn [flat_map]. rewrite Heq. unfold utf16_of_cp.
        destruct (Z.ltb_spec (65536 + (u - 55296) * 1024 + (l - 56320)) 65536); [lia |].
        cbn [app]. f_equal; [zlia | f_equal; zlia].
    + (* a code unit that is not a surrogate *)
      apply andb_true_iff in Hwf as [Hlow Hwf]. apply negb_true_iff in Hlow.
      rewrite Hlow.
      unfold is_high, is_low in Hh, Hlow.
      destruct (IH s' ltac:(lia) Hwf) as [Hv Heq].
      split.
      * constructor; [| exact Hv]. unfold scalar_value. split; [lia |].
        intros Hs. apply andb_false_iff in Hh, Hlow.
        destruct Hh as [Hh | Hh]; apply Z.leb_gt in Hh;
          destruct Hlow as [Hl | Hl]; apply Z.leb_gt in Hl; lia.
      * cbn [flat_map]. rewrite Heq. unfold utf16_of_cp.
        destruct (Z.ltb_spec u 65536); [reflexivity | lia].
Qed.

(** Writing a well-formed string as UTF-8 and reading it back gives the
    string. *)
Lemma utf8_decode_encode (s : jstr) :
  well_formed_utf16 s = true -> utf8_decode (utf8_encode s) = s.
Proof.
  intros Hwf. destruct (code_points_well_formed (length s) s (le_n _) Hwf) as [Hv Heq].
  unfold utf8_decode, utf8_encode. rewrite dec_run_utf8 by exact Hv. exact Heq.
Qed.

(** A JavaScript string written as UTF-8 and read back is the string
    with its unpaired surrogates replaced by U+FFFD. *)
Lemma code_points_js_string (n : nat) (s : jstr) :
  (length s <= n)%nat -> js_string s ->
  Forall scalar_value (code_points s) /\ flat_map utf16_of_cp (code_points s) = toWellFormed s.
Proof.
  assert (Hfffd : scalar_value 65533) by (unfold scalar_value; lia).
  revert s; induction n as [|n IH]; intros s Hlen Hjs.
  - destruct s; [split; [constructor | reflexivity] | simpl in Hlen; lia].
  - destruct s as [|u s']; [split; [constructor | reflexivity] |].
    cbn [length] in Hlen. inversion Hjs as [| u0 s0 Hu Hjs']; subst.
    cbn [code_points toWellFormed].
    destruct (is_high u) eqn:Hh.
    + destruct s' as [|l s''].
      * split; [constructor; [exact Hfffd | constructor] | reflexivity].
      * inversion Hjs' as [| l0 s0 Hl Hjs'']; subst. cbn [length] in Hlen.
        destruct (is_low l) eqn:Hlo.
        -- destruct (IH s'' ltac:(lia) Hjs'') as [Hv Heq].
           unfold is_high, is_low in Hh, Hlo.
           apply andb_true_iff in Hh as [Hh0 Hh1]. apply andb_true_iff in Hlo as [Hl0 Hl1].
           apply Z.leb_le in Hh0, Hh1, Hl0, Hl1.
           split; [constructor; [unfold scalar_value; lia | exact Hv] |].
           cbn [flat_map]. rewrite Heq. unfold utf16_of_cp.
           destruct (Z.ltb_spec (65536 + (u - 55296) * 1024 + (l - 56320)) 65536); [lia |].
           cbn [app]. f_equal; [zlia | f_equal; zlia].
        -- destruct (IH (l :: s'') ltac:(cbn [length]; lia) Hjs') as [Hv Heq].
           split; [constructor; [exact Hfffd | exact Hv] |].
           cbn [flat_map]. rewrite Heq. reflexivity.
    + destruct (IH s' ltac:(lia) Hjs') as [Hv Heq].
      destruct (is_low u) eqn:Hlo.
      * split; [constructor; [exact Hfffd | exact Hv] |].
        cbn [flat_map]. rewrite Heq. reflexivity.
      * split.
        -- constructor; [| exact Hv]. unfold scalar_value. split; [lia |].
           intros Hs. unfold is_high, is_low in Hh, Hlo.
           apply andb_false_iff in Hh, Hlo.
           destruct Hh as [Hh | Hh]; apply Z.leb_gt in Hh;
             destruct Hlo as [Hl | Hl]; apply Z.leb_gt in Hl; lia.
        -- cbn [flat_map]. rewrite Heq. unfold utf16_of_cp.
           destruct (Z.ltb_spec u 65536); [reflexivity | lia].
Qed.

Lemma utf8_decode_encode_any (s : jstr) :
  js_string s -> utf8_decode (utf8_encode s) = toWellFormed s.
Proof.
  intros Hjs. destruct (code_points_js_string (length s) s (le_n _) Hjs) as [Hv Heq].
  unfold utf8_decode, utf8_encode. rewrite dec_run_utf8 by exact Hv. exact Heq.
Qed.

(** [toWellFormed] does not change the code points V8 writes out. *)
Lemma code_points_toWellFormed (n : nat) (s : jstr) :
  (length s <= n)%nat -> code_points (toWellFormed s) = code_points s.
Proof.
  revert s; induction n as [|n IH]; intros s Hlen.
  - destruct s; [reflexivity | simpl in Hlen; lia].
  - destruct s as [|u s']; [reflexivity |]. cbn [length] in Hlen.
    cbn [toWellFormed code_points].
    destruct (is_high u) eqn:Hh.
    + destruct s' as [|l s'']; [reflexivity |]. cbn [length] in Hlen.
      destruct (is_low l) eqn:Hlo.
      * cbn [code_points]. rewrite Hh, Hlo, IH by lia. reflexivity.
      * cbn [code_points]. rewrite IH by (cbn [length]; lia). reflexivity.
    + destruct (is_low u) eqn:Hlo.
      * cbn [code_points]. rewrite IH by lia. reflexivity.
      * cbn [code_points]. rewrite Hh, Hlo, IH by lia. reflexivity.
Qed.

Lemma utf8_encode_toWellFormed (s : jstr) : utf8_encode (toWellFormed s) = utf8_encode s.
Proof. unfold utf8_encode. rewrite (code_points_toWellFormed (length s)) by lia. reflexivity. Qed.

(** ** The filesystem tools *)

Lemma error_writing_not_success (m P : jstr) :
  lit "Error writing file: " ++ m <> write_success P.
Proof. unfold write_success. cbn. discriminate. Qed.

Lemma ok_pair_inv {A B : Type} (a a' : A) (b b' : B) :
  ((Ok a, b) : exc A * B) = (Ok a', b') -> a = a' /\ b = b'.
Proof. intros H. inversion H. auto. Qed.

(** When [write_file] reports success, the target holds the UTF-8 bytes
    of the content. *)
Lemma write_file_stores (cwd baseDir P X p : jstr) (fs fs' : fsys) :
  normalizePath cwd baseDir P = Ok p ->
  write_file cwd baseDir P X fs = (Ok (write_success P), fs') ->
  fs' !! p = Some (File (utf8_encode X)).
Proof.
  intros Hp Hw. unfold write_file, fs_catch, fs_bind, fs_lift in Hw.
  rewrite Hp in Hw. unfold existsSync in Hw.
  destruct (negb (exists_in fs (path_dirname p))).
  - destruct (mkdirSync_recursive (path_dirname p) fs) as [[[]|m] fs1].
    + unfold writeFileSync in Hw.
      destruct (fs1 !! p) as [[b|]|] eqn:E1.
      * injection Hw as <-. apply lookup_insert_eq.
      * apply ok_pair_inv in Hw as [Hw _]. exfalso. exact (error_writing_not_success _ _ Hw).
      * destruct (fs1 !! path_dirname p) as [[b|]|].
        -- apply ok_pair_inv in Hw as [Hw _]. exfalso. exact (error_writing_not_success _ _ Hw).
        -- injection Hw as <-. apply lookup_insert_eq.
        -- apply ok_pair_inv in Hw as [Hw _]. exfalso. exact (error_writing_not_success _ _ Hw).
    + unfold handle_error, fs_ret in Hw.
      apply ok_pair_inv in Hw as [Hw _]. exfalso. exact (error_writing_not_success _ _ Hw).
  - unfold fs_ret, writeFileSync in Hw.
    destruct (fs !! p) as [[b|]|] eqn:E1.
    * injection Hw as <-. apply lookup_insert_eq.
    * apply ok_pair_inv in Hw as [Hw _]. exfalso. exact (error_writing_not_success _ _ Hw).
    * destruct (fs !! path_dirname p) as [[b|]|].
      -- apply ok_pair_inv in Hw as [Hw _]. exfalso. exact (error_writing_not_success _ _ Hw).
      -- injection Hw as <-. apply lookup_insert_eq.
      -- apply ok_pair_inv in Hw as [Hw _]. exfalso. exact (error_writing_not_success _ _ Hw).
Qed.

(** [read_file] on a confined path that holds a file returns its bytes
    decoded as UTF-8. *)
Lemma read_file_file (cwd baseDir P p : jstr) (bytes : list Z) (fs : fsys) :
  normalizePath cwd baseDir P = Ok p ->
  fs !! p = Some (File bytes) ->
  read_file cwd baseDir P fs = (Ok (utf8_decode bytes), fs).
Proof.
  intros Hp Hf. unfold read_file, fs_catch, fs_bind, fs_lift.
  rewrite Hp. unfold existsSync, exists_in. rewrite Hf.
  rewrite bool_decide_eq_true_2 by (eexists; reflexivity). cbn [negb].
  unfold statSync_isFile. rewrite Hf. cbn [negb].
  unfold readFileSync. rewrite Hf. reflexivity.
Qed.

(** ** The execution core of [run_command] *)

Section CoreLemmas.

Context {toStr : NumberToString}.

Lemma run_events_app (t : js_number) (evs evs' : list proc_event) :
  run_events t (evs ++ evs') = fold_left (on_event t) evs' (run_events t evs).
Proof. unfold run_events. apply fold_left_app. Qed.

Lemma on_event_keeps_result (t : js_number) (st : proc_state) (e : proc_event) (v : jstr) :
  ps_result st = Some v -> ps_result (on_event t st e) = Some v.
Proof.
  intros H. destruct e; cbn [on_event];
    unfold resolve, clear_timer; cbn [ps_result ps_timer];
    try (destruct (ps_timer st)); cbn [ps_result]; rewrite ?H; auto.
Qed.

Lemma fold_keeps_result (t : js_number) (evs : list proc_event) (st : proc_state) (v : jstr) :
  ps_result st = Some v -> ps_result (fold_left (on_event t) evs st) = Some v.
Proof.
  revert st; induction evs as [|e evs IH]; intros st H; [exact H |].
  cbn [fold_left]. apply IH. apply on_event_keeps_result. exact H.
Qed.

Lemma fold_stdout (t : js_number) (evs : list proc_event) (st : proc_state) :
  ps_stdout (fold_left (on_event t) evs st) = ps_stdout st ++ stdout_of evs
  /\ ps_stderr (fold_left (on_event t) evs st) = ps_stderr st ++ stderr_of evs.
Proof.
  revert st; induction evs as [|e evs IH]; intros st.
  - rewrite !app_nil_r. auto.
  - cbn [fold_left]. destruct (IH (on_event t st e)) as [H1 H2].
    rewrite H1, H2.
    destruct e; cbn [on_event stdout_of stderr_of];
      unfold resolve, clear_timer;
      try (destruct (ps_timer st)); try (destruct (ps_result st));
      cbn [ps_stdout ps_stderr]; rewrite ?app_assoc; auto.
Qed.

Lemma run_events_output (t : js_number) (evs : list proc_event) :
  ps_stdout (run_events t evs) = stdout_of evs
  /\ ps_stderr (run_events t evs) = stderr_of evs.
Proof. apply (fold_stdout t evs (proc_init t)). Qed.

(** While the call is pending, the timer is armed exactly when
    [timeout > 0]. *)
Definition pending_inv (t : js_number) (st : proc_state) : Prop :=
  is_Some (ps_result st) \/ ps_timer st = js_positive t.

Lemma on_event_inv (t : js_number) (st : proc_state) (e : proc_event) :
  pending_inv t st -> pending_inv t (on_event t st e).
Proof.
  unfold pending_inv. intros [[v Hv] | Ht].
  - left. exists v. apply on_event_keeps_result. exact Hv.
  - destruct (ps_result st) as [v|] eqn:Hr.
    + left. exists v. apply on_event_keeps_result. exact Hr.
    + destruct e; cbn [on_event]; unfold resolve, clear_timer;
        try (destruct (ps_timer st) eqn:Et); cbn [ps_result ps_timer]; rewrite ?Hr;
        cbn [ps_result]; eauto; right; congruence.
Qed.

Lemma run_events_inv (t : js_number) (evs : list proc_event) :
  pending_inv t (run_events t evs).
Proof.
  unfold run_events.
  assert (H0 : pending_inv t (proc_init t)) by (right; reflexivity).
  revert H0. generalize (proc_init t).
  induction evs as [|e evs IH]; intros st H; [exact H |].
  cbn [fold_left]. apply IH. apply on_event_inv. exact H.
Qed.


Lemma on_event_timer_off (t : js_number) (st : proc_state) (e : proc_event) :
  ps_timer st = false -> ps_timer (on_event t st e) = false.
Proof.
  intros H. destruct e; cbn [on_event]; unfold resolve, clear_timer;
    rewrite ?H; cbn [ps_timer]; try (destruct (ps_result st)); cbn [ps_timer]; auto.
Qed.

(** Without an armed timer, expiry events change nothing. *)
Lemma fold_without_timer (t : js_number) (evs : list proc_event) (st : proc_state) :
  ps_timer st = false ->
  fold_left (on_event t) evs st = fold_left (on_event t) (filter (fun e => negb (is_timer e)) evs) st.
Proof.
  revert st; induction evs as [|e evs IH]; intros st H; [reflexivity |].
  destruct e; cbn [fold_left filter is_timer negb];
    try (apply IH; apply on_event_timer_off; exact H).
  cbn [on_event]. rewrite H. apply IH. exact H.
Qed.

Lemma fold_keeps_killed (t : js_number) (evs : list proc_event) (st : proc_state) :
  ps_killed st = true -> ps_killed (fold_left (on_event t) evs st) = true.
Proof.
  revert st; induction evs as [|e evs IH]; intros st H; [exact H |].
  cbn [fold_left]. apply IH.
  destruct e; cbn [on_event]; unfold resolve, clear_timer;
    try (destruct (ps_timer st)); try (destruct (ps_result st)); cbn [ps_killed]; auto.
Qed.


(** The call settled by [close]: the value the callback computes from the
    output accumulated so far. *)
Lemma close_settles (t : js_number) (ds rest : list proc_event) (code : option Z) :
  ps_result (run_events t ds) = None ->
  ps_result (run_events t (ds ++ Close code :: rest)) =
  Some (close_result code (stdout_of ds) (stderr_of ds)).
Proof.
  intros Hnone. rewrite run_events_app. cbn [fold_left].
  apply fold_keeps_result. cbn [on_event]. unfold resolve, clear_timer.
  cbn [ps_result ps_stdout ps_stderr]. rewrite Hnone.
  destruct (run_events_output t ds) as [Ho He]. rewrite Ho, He. reflexivity.
Qed.

(** Without a settling event the call stays pending. *)
Lemma fold_pending_without_terminal (t : js_number) (evs : list proc_event) (st : proc_state) :
  ps_result st = None -> (ps_timer st = true -> js_positive t = true) ->
  existsb (terminal t) evs = false -> ps_result (fold_left (on_event t) evs st) = None.
Proof.
  revert st; induction evs as [|e evs IH]; intros st Hr Ht Hex; [exact Hr |].
  cbn [existsb] in Hex. apply orb_false_iff in Hex as [He Hex].
  cbn [fold_left]. apply IH; [| | exact Hex].
  - destruct e; cbn [terminal] in He; try discriminate; cbn [on_event]; [exact Hr | exact Hr |].
    destruct (ps_timer st) eqn:Et; [rewrite (Ht eq_refl) in He; discriminate | exact Hr].
  - destruct e; cbn [terminal] in He; try discriminate; cbn [on_event ps_timer]; [exact Ht | exact Ht |].
    destruct (ps_timer st) eqn:Et; [rewrite (Ht eq_refl) in He; discriminate |].
    rewrite Et. discriminate.
Qed.

Lemma run_events_pending (t : js_number) (evs : list proc_event) :
  existsb (terminal t) evs = false -> ps_result (run_events t evs) = None.
Proof. apply fold_pending_without_terminal; [reflexivity | cbn [proc_init ps_timer]; auto]. Qed.

End CoreLemmas.

(** * The claims *)

(** ** C1: path confinement *)

(** C1 (code_bug).  The confinement check is a textual [startsWith] on
    the base directory without a separator, so a sibling directory whose
    name extends the base directory's name is accepted, by [normalizePath]
    as well as by the working-directory check of [run_command]. *)
Theorem confinement_accepts_sibling :
  normalizePath (lit "/") (lit "/home/u/proj") (lit "../proj-secret/key")
    = Ok (lit "/home/u/proj-secret/key")
  /\ lit "/home/u/proj-secret/key" <> lit "/home/u/proj"
  /\ startsWith (lit "/home/u/proj-secret/key") (lit "/home/u/proj/") = false
  /\ run_command_check (lit "/") (lit "/home/u/proj")
       {[ lit "/home/u/proj-secret" := Dir ]} (lit "../proj-secret")
     = Spawn (lit "/home/u/proj-secret").
Proof.
  split; [vm_compute; reflexivity |].
  split; [vm_compute; discriminate |].
  split; vm_compute; reflexivity.
Qed.

(** ** C2: one result per invocation *)


Section C2_one_result.

Context {toStr : NumberToString}.


End C2_one_result.


(** ** C3: the result of [close] *)

(** C3 (counterexample).  The child exits with code 0 just as the timer
    expires, and the timer callback runs first: the close event delivers
    exit code 0, but the result is the timeout notice, not the output. *)
Lemma run_command_close_zero_after_timer :
  let ts : NumberToString := fun _ => lit "100" in
  ps_result (@run_events ts (JsFinite (inject_Z 100))
               [StdoutData (lit "hi"); TimerExpires; Close (Some 0)])
    = Some (lit "Command timed out after 100ms")
  /\ ps_result (@run_events ts (JsFinite (inject_Z 100))
                  [StdoutData (lit "hi"); TimerExpires; Close (Some 0)])
    <> Some (str_or (lit "hi") no_output).
Proof. intros ts. split; vm_compute; [reflexivity | discriminate]. Qed.

Section C3_close.

Context {toStr : NumberToString}.

(** C3 (amended).  When the [close] event of the child settles the call
    (nothing resolved it before), exit code 0 gives the accumulated
    standard output or the ['no output'] placeholder, and any other code
    gives the standard error, else the standard output, else a fixed
    placeholder, after a prefix that names the exit code.  When an armed
    timer has fired while the call was pending, a later [close] is
    ignored, whatever its code, and the result stays the timeout
    notice. *)
Theorem run_command_close_result (t : js_number) (ds mid rest : list proc_event) (c : Z) :
  ps_result (run_events t ds) = None ->
  ps_result (run_events t (ds ++ Close (Some c) :: rest)) =
  Some (if c =? 0 then str_or (stdout_of ds) no_output
        else lit "Command failed with exit code " ++ num_str c ++ lit ":" ++ [10]
             ++ str_or (stderr_of ds) (str_or (stdout_of ds) (lit "No error output")))
  /\ (js_positive t = true ->
      ps_result (run_events t (ds ++ TimerExpires :: mid ++ Close (Some c) :: rest))
      = Some (timeout_message t)).
Proof.
  intros Hnone. split.
  - rewrite (close_settles t ds rest (Some c) Hnone).
    unfold close_result. destruct c; reflexivity.
  - intros Hpos.
    destruct (run_events_inv t ds) as [[v Hv] | Htimer]; [congruence |].
    rewrite run_events_app. cbn [fold_left on_event]. rewrite Htimer, Hpos.
    apply fold_keeps_result. unfold resolve. cbn [ps_result]. rewrite Hnone. reflexivity.
Qed.

End C3_close.

Lemma run_command_close_result_witness :
  let ts : NumberToString := fun _ => lit "100" in
  let t := JsFinite (inject_Z 100) in
  ps_result (@run_events ts t [StdoutData (lit "hi"); StderrData (lit "warn")]) = None
  /\ ps_result (@run_events ts t ([StdoutData (lit "hi"); StderrData (lit "warn")]
                                   ++ Close (Some 7) :: []))
     = Some (if 7 =? 0
             then str_or (stdout_of [StdoutData (lit "hi"); StderrData (lit "warn")]) no_output
             else lit "Command failed with exit code " ++ num_str 7 ++ lit ":" ++ [10]
                  ++ str_or (stderr_of [StdoutData (lit "hi"); StderrData (lit "warn")])
                       (str_or (stdout_of [StdoutData (lit "hi"); StderrData (lit "warn")])
                          (lit "No error output")))
  /\ ps_result (@run_events ts t ([StdoutData (lit "hi"); StderrData (lit "warn")]
                                   ++ TimerExpires :: [StdoutData (lit "more")]
                                   ++ Close (Some 0) :: []))
     = Some (lit "Command timed out after 100ms").
Proof.
  intros ts t.
  assert (Hnone : ps_result (@run_events ts t [StdoutData (lit "hi"); StderrData (lit "warn")])
                  = None) by reflexivity.
  destruct (@run_command_close_result ts t [StdoutData (lit "hi"); StderrData (lit "warn")]
              [StdoutData (lit "more")] [] 0 Hnone) as [_ Htimer].
  split; [exact Hnone | split].
  - exact (proj1 (@run_command_close_result ts t [StdoutData (lit "hi"); StderrData (lit "warn")]
                    [] [] 7 Hnone)).
  - rewrite (Htimer eq_refl). reflexivity.
Defined.

(** ** C4: the timeout *)

Section C4_timeout.

Context {toStr : NumberToString}.

(** C4.  The effective timeout is 30000 when omitted; the timer is armed
    exactly when it is greater than 0 (fractional values included); when
    it expires while the call is pending, [process.kill()] is called and
    the result is the timeout notice naming the duration as [`${timeout}`]
    prints it, whatever output was accumulated; when the timeout is 0 or
    negative, expiry events have no effect. *)
Theorem run_command_timeout (timeout : option js_number) (ds rest : list proc_event) :
  let t := effective_timeout timeout in
  effective_timeout None = JsFinite (inject_Z 30000)
  /\ (forall q, js_positive (JsFinite q) = true <-> (0 < q)%Q)
  /\ ps_timer (proc_init t) = js_positive t
  /\ (js_positive t = true -> ps_result (run_events t ds) = None ->
      ps_result (run_events t (ds ++ TimerExpires :: rest))
      = Some (lit "Command timed out after " ++ number_toString t ++ lit "ms")
      /\ ps_killed (run_events t (ds ++ TimerExpires :: rest)) = true)
  /\ (js_positive t = false ->
      run_events t (ds ++ rest)
      = run_events t (filter (fun e => negb (is_timer e)) (ds ++ rest))).
Proof.
  intros t. split; [reflexivity |]. split.
  { intros q. unfold js_positive. rewrite negb_true_iff. split; intros Hq.
    - apply Qnot_le_lt. intros Hle. apply Qle_bool_iff in Hle. congruence.
    - destruct (Qle_bool q 0) eqn:E; [| reflexivity].
      apply Qle_bool_iff in E. exfalso. exact (Qlt_not_le _ _ Hq E). }
  split; [reflexivity |]. split.
  - intros Hpos Hnone.
    destruct (run_events_inv t ds) as [[v Hv] | Htimer]; [congruence |].
    rewrite Hpos in Htimer.
    rewrite run_events_app. cbn [fold_left on_event]. rewrite Htimer.
    split.
    + apply fold_keeps_result. unfold resolve. cbn [ps_result]. rewrite Hnone. reflexivity.
    + apply fold_keeps_killed. unfold resolve. cbn [ps_result]. rewrite Hnone. reflexivity.
  - intros Hle. unfold run_events. apply fold_without_timer.
    cbn [proc_init ps_timer]. exact Hle.
Qed.

End C4_timeout.

(** A timeout of half a millisecond arms the timer. *)
Lemma run_command_timeout_witness :
  let ts : NumberToString := fun _ => lit "0.5" in
  let t := effective_timeout (Some (JsFinite (1 # 2))) in
  (js_positive t = true /\ ps_result (@run_events ts t [StdoutData (lit "partial")]) = None)
  /\ ps_result (@run_events ts t ([StdoutData (lit "partial")] ++ TimerExpires :: [Close None]))
     = Some (lit "Command timed out after 0.5ms").
Proof.
  intros ts t.
  assert (Hpos : js_positive t = true) by reflexivity.
  assert (Hnone : ps_result (@run_events ts t [StdoutData (lit "partial")]) = None)
    by reflexivity.
  split; [split; [exact Hpos | exact Hnone] |].
  destruct (@run_command_timeout ts (Some (JsFinite (1 # 2))) [StdoutData (lit "partial")]
              [Close None]) as (_ & _ & _ & H & _).
  exact (proj1 (H Hpos Hnone)).
Defined.

(** ** C5: checks on the working directory *)

(** C5 (code_bug).  The working-directory check only asks
    [fs.existsSync]: a working directory naming an existing regular file
    passes both checks, and [spawn] is called with it as [cwd]. *)
Theorem run_command_cwd_regular_file :
  ({[ lit "/home/u/proj" := Dir; lit "/home/u/proj/README.md" := File [] ]} : fsys)
     !! lit "/home/u/proj/README.md" = Some (File [])
  /\ run_command_check (lit "/") (lit "/home/u/proj")
       {[ lit "/home/u/proj" := Dir; lit "/home/u/proj/README.md" := File [] ]}
       (lit "README.md")
     = Spawn (lit "/home/u/proj/README.md").
Proof. split; vm_compute; reflexivity. Qed.

(** ** C6: the environment of the child *)

(** C6 (counterexample).  A [PATH] that is set to the empty string is
    falsy for [!env.PATH], so [getShellEnv] replaces it. *)
Lemma getShellEnv_replaces_empty_PATH :
  getShellEnv (lit "/home/u") {[ PATH := [] ]} !! PATH <> Some [].
Proof. vm_compute. discriminate. Qed.

(** C6 (amended).  [getShellEnv] leaves every variable other than [PATH]
    as it is, keeps a non-empty [PATH], and sets [PATH] to the default
    list exactly when it is absent or empty. *)
Theorem getShellEnv_spec (homeDir : jstr) (env : environment) (k : jstr) :
  (k <> PATH -> getShellEnv homeDir env !! k = env !! k)
  /\ getShellEnv homeDir env !! PATH
     = (if path_missing env then Some (default_PATH homeDir) else env !! PATH)
  /\ (path_missing env = true <-> env !! PATH = None \/ env !! PATH = Some []).
Proof.
  unfold getShellEnv. split; [| split].
  - intros Hk. destruct (path_missing env); [| reflexivity].
    apply lookup_insert_ne. congruence.
  - destruct (path_missing env); [apply lookup_insert_eq | reflexivity].
  - unfold path_missing. destruct (env !! PATH) as [[|c v]|]; split; intros H;
      try discriminate; auto.
    destruct H as [H | H]; discriminate.
Qed.

Lemma getShellEnv_spec_witness :
  lit "HOME" <> PATH
  /\ getShellEnv (lit "/home/u") {[ lit "HOME" := lit "/home/u" ]} !! lit "HOME"
     = ({[ lit "HOME" := lit "/home/u" ]} : environment) !! lit "HOME".
Proof.
  assert (Hk : lit "HOME" <> PATH) by (vm_compute; discriminate).
  split; [exact Hk |].
  exact (proj1 (getShellEnv_spec (lit "/home/u") {[ lit "HOME" := lit "/home/u" ]}
                  (lit "HOME")) Hk).
Defined.

(** ** C7: [edit_file] *)

(** C7.  On a confined path with nothing there, [edit_file] answers the
    not-found message and leaves the file system as it is; on a file it
    replaces the file's content with the new one and answers the success
    message followed by the patch [createPatch] builds from the old and
    the new content. *)
Theorem edit_file_spec (cwd baseDir : jstr) (createPatch : jstr -> jstr -> jstr -> jstr -> jstr -> jstr)
    (fs : fsys) (P newContent p : jstr) :
  normalizePath cwd baseDir P = Ok p ->
  (fs !! p = None ->
   edit_file cwd baseDir createPatch P newContent fs
   = (Ok (lit "Error: File '" ++ P ++ lit "' does not exist"), fs))
  /\ (forall bytes, fs !! p = Some (File bytes) ->
      edit_file cwd baseDir createPatch P newContent fs
      = (Ok (edit_success P (createPatch P (utf8_decode bytes) newContent (lit "Old") (lit "New"))),
         <[p := File (utf8_encode newContent)]> fs)).
Proof.
  intros Hp. unfold edit_file, fs_catch, fs_bind, fs_lift. rewrite Hp.
  unfold existsSync, exists_in. split.
  - intros Hnone. rewrite Hnone.
    rewrite bool_decide_eq_false_2 by (intros [x Hx]; discriminate). reflexivity.
  - intros bytes Hf. rewrite Hf.
    rewrite bool_decide_eq_true_2 by (eexists; reflexivity). cbn [negb].
    unfold readFileSync. rewrite Hf. unfold writeFileSync. rewrite Hf. reflexivity.
Qed.

Lemma edit_file_spec_witness :
  normalizePath (lit "/") (lit "/home/u/proj") (lit "a.txt") = Ok (lit "/home/u/proj/a.txt")
  /\ ({[ lit "/home/u/proj/a.txt" := File [111] ]} : fsys) !! lit "/home/u/proj/a.txt"
     = Some (File [111])
  /\ edit_file (lit "/") (lit "/home/u/proj") (fun _ o n _ _ => o ++ n) (lit "a.txt") [110]
       {[ lit "/home/u/proj/a.txt" := File [111] ]}
     = (Ok (edit_success (lit "a.txt") (utf8_decode [111] ++ [110])),
        <[lit "/home/u/proj/a.txt" := File (utf8_encode [110])]>
          {[ lit "/home/u/proj/a.txt" := File [111] ]}).
Proof.
  assert (Hp : normalizePath (lit "/") (lit "/home/u/proj") (lit "a.txt")
               = Ok (lit "/home/u/proj/a.txt")) by (vm_compute; reflexivity).
  assert (Hf : ({[ lit "/home/u/proj/a.txt" := File [111] ]} : fsys) !! lit "/home/u/proj/a.txt"
               = Some (File [111])) by (vm_compute; reflexivity).
  split; [exact Hp | split; [exact Hf |]].
  exact (proj2 (edit_file_spec (lit "/") (lit "/home/u/proj") (fun _ o n _ _ => o ++ n)
                  {[ lit "/home/u/proj/a.txt" := File [111] ]} (lit "a.txt") [110]
                  (lit "/home/u/proj/a.txt") Hp) [111] Hf).
Defined.

(** ** C8: writing then reading *)

(** C8 (counterexample).  The content is a string with an unpaired
    surrogate (JSON ["\ud800"]); [writeFileSync] stores it as UTF-8 with
    U+FFFD in its place, [write_file] reports success, and [read_file]
    returns U+FFFD. *)
Lemma write_read_lone_surrogate :
  let fs0 : fsys := {[ lit "/home/u/proj" := Dir ]} in
  fst (write_file (lit "/") (lit "/home/u/proj") (lit "notes.txt") [55296] fs0)
    = Ok (write_success (lit "notes.txt"))
  /\ fst (read_file (lit "/") (lit "/home/u/proj") (lit "notes.txt")
           (snd (write_file (lit "/") (lit "/home/u/proj") (lit "notes.txt") [55296] fs0)))
    = Ok [65533].
Proof. split; vm_compute; reflexivity. Qed.

(** C8 (amended).  For a path accepted by the confinement check and any
    content string, a [write_file] that reports success stores the
    content with each unpaired surrogate replaced by U+FFFD, and
    [read_file] of the same path then returns that string; a content
    whose surrogates are all paired is returned as it was written. *)
Theorem write_then_read (cwd baseDir P X p : jstr) (fs fs' : fsys) :
  normalizePath cwd baseDir P = Ok p ->
  js_string X ->
  write_file cwd baseDir P X fs = (Ok (write_success P), fs') ->
  fs' !! p = Some (File (utf8_encode (toWellFormed X)))
  /\ read_file cwd baseDir P fs' = (Ok (toWellFormed X), fs')
  /\ (well_formed_utf16 X = true -> read_file cwd baseDir P fs' = (Ok X, fs')).
Proof.
  intros Hp Hjs Hw.
  pose proof (write_file_stores cwd baseDir P X p fs fs' Hp Hw) as Hst.
  rewrite (read_file_file cwd baseDir P p (utf8_encode X) fs' Hp Hst).
  rewrite utf8_encode_toWellFormed, utf8_decode_encode_any by exact Hjs.
  split; [exact Hst | split; [reflexivity |]].
  intros Hwf. rewrite <- (utf8_decode_encode_any X Hjs), utf8_decode_encode by exact Hwf.
  reflexivity.
Qed.

Lemma write_then_read_witness :
  let fs0 : fsys := {[ lit "/home/u/proj" := Dir ]} in
  let fs1 := snd (write_file (lit "/") (lit "/home/u/proj") (lit "a/b.txt") [104; 55296; 105] fs0) in
  normalizePath (lit "/") (lit "/home/u/proj") (lit "a/b.txt") = Ok (lit "/home/u/proj/a/b.txt")
  /\ js_string [104; 55296; 105]
  /\ write_file (lit "/") (lit "/home/u/proj") (lit "a/b.txt") [104; 55296; 105] fs0
     = (Ok (write_success (lit "a/b.txt")), fs1)
  /\ read_file (lit "/") (lit "/home/u/proj") (lit "a/b.txt") fs1 = (Ok [104; 65533; 105], fs1).
Proof.
  intros fs0 fs1.
  assert (Hp : normalizePath (lit "/") (lit "/home/u/proj") (lit "a/b.txt")
               = Ok (lit "/home/u/proj/a/b.txt")) by (vm_compute; reflexivity).
  assert (Hjs : js_string [104; 55296; 105]).
  { unfold js_string. repeat (apply List.Forall_cons; [lia |]). apply List.Forall_nil. }
  assert (Hw : write_file (lit "/") (lit "/home/u/proj") (lit "a/b.txt") [104; 55296; 105] fs0
               = (Ok (write_success (lit "a/b.txt")), fs1)) by (vm_compute; reflexivity).
  split; [exact Hp | split; [exact Hjs | split; [exact Hw |]]].
  destruct (write_then_read (lit "/") (lit "/home/u/proj") (lit "a/b.txt") [104; 55296; 105]
              (lit "/home/u/proj/a/b.txt") fs0 fs1 Hp Hjs Hw) as (_ & Hr & _).
  exact Hr.
Defined.

(** ** C9: [get_env] on [PATH] *)

(** C9.  The environment [get_env] reads always has [PATH], and
    [get_env] returns its value. *)
Theorem get_env_PATH_set (homeDir : jstr) (env : environment) :
  exists v, getShellEnv homeDir env !! PATH = Some v /\ get_env homeDir env PATH = v.
Proof.
  unfold get_env, getShellEnv, path_missing.
  destruct (env !! PATH) as [[|c v]|] eqn:E.
  - exists (default_PATH homeDir). rewrite lookup_insert_eq. auto.
  - exists (c :: v). rewrite E. auto.
  - exists (default_PATH homeDir). rewrite lookup_insert_eq. auto.
Qed.

(** ** C10: nonzero and [null] exit codes *)

Section C10_failure.

Context {toStr : NumberToString}.

(** C10.  When [close] settles the call with any exit code other than 0,
    [null] included, the result is the failure message with the code as
    [`${code}`] prints it. *)
Theorem run_command_nonzero_close (t : js_number) (ds rest : list proc_event) (code : option Z) :
  ps_result (run_events t ds) = None -> code <> Some 0 ->
  ps_result (run_events t (ds ++ Close code :: rest)) =
  Some (lit "Command failed with exit code " ++ code_str code ++ lit ":" ++ [10]
        ++ str_or (stderr_of ds) (str_or (stdout_of ds) (lit "No error output"))).
Proof.
  intros Hnone Hcode. rewrite (close_settles t ds rest code Hnone).
  unfold close_result. destruct code as [[|c|c]|]; try reflexivity. congruence.
Qed.

End C10_failure.

Lemma run_command_nonzero_close_witness :
  let ts : NumberToString := fun _ => lit "100" in
  ps_result (@run_events ts (JsFinite (inject_Z 100)) [StdoutData (lit "out")]) = None
  /\ (None : option Z) <> Some 0
  /\ ps_result (@run_events ts (JsFinite (inject_Z 100)) ([StdoutData (lit "out")] ++ Close None :: []))
     = Some (lit "Command failed with exit code " ++ lit "null" ++ lit ":" ++ [10]
             ++ str_or (stderr_of [StdoutData (lit "out")])
                  (str_or (stdout_of [StdoutData (lit "out")]) (lit "No error output"))).
Proof.
  intros ts.
  assert (Hn : (None : option Z) <> Some 0) by discriminate.
  assert (Hnone : ps_result (@run_events ts (JsFinite (inject_Z 100)) [StdoutData (lit "out")])
                  = None) by reflexivity.
  split; [exact Hnone | split; [exact Hn |]].
  exact (@run_command_nonzero_close ts (JsFinite (inject_Z 100)) [StdoutData (lit "out")] [] None
           Hnone Hn).
Defined.

(** * Further properties *)

(** ** Helpers *)

Lemma exists_in_none (fs : fsys) (p : jstr) : fs !! p = None -> exists_in fs p = false.
Proof. intros H. unfold exists_in. rewrite H. apply bool_decide_eq_false_2. intros [x Hx]; discriminate. Qed.

Lemma exists_in_some (fs : fsys) (p : jstr) (n : node) : fs !! p = Some n -> exists_in fs p = true.
Proof. intros H. unfold exists_in. rewrite H. apply bool_decide_eq_true_2. eexists; reflexivity. Qed.

Lemma writeFileSync_other (p c : jstr) (fs fs' : fsys) (r : exc unit) (k : jstr) :
  writeFileSync p c fs = (r, fs') -> k <> p -> fs' !! k = fs !! k.
Proof.
  intros Hw Hk. unfold writeFileSync in Hw.
  destruct (fs !! p) as [[b|]|]; [| | destruct (fs !! path_dirname p) as [[b|]|]];
    inversion Hw; subst; try reflexivity; apply lookup_insert_ne; congruence.
Qed.

Lemma writeFileSync_stores (p c : jstr) (fs fs' : fsys) :
  writeFileSync p c fs = (Ok tt, fs') -> fs' !! p = Some (File (utf8_encode c)).
Proof.
  intros Hw. unfold writeFileSync in Hw.
  destruct (fs !! p) as [[b|]|]; [| | destruct (fs !! path_dirname p) as [[b|]|]];
    inversion Hw; subst; apply lookup_insert_eq.
Qed.

(** [mkdirSync(d, { recursive: true })] only adds directories where
    nothing was. *)
Lemma mkdirp_segs_grows (cur : jstr) (segs : list jstr) (fs fs' : fsys) (r : exc unit) :
  mkdirp_segs cur segs fs = (r, fs') ->
  forall k, fs' !! k = fs !! k \/ (fs !! k = None /\ fs' !! k = Some Dir).
Proof.
  revert cur fs; induction segs as [|sg segs IH]; intros cur fs Hm k.
  - cbn in Hm. unfold fs_ret in Hm. inversion Hm. auto.
  - cbn [mkdirp_segs] in Hm.
    destruct (fs !! (cur ++ [SLASH] ++ sg)) as [[b|]|] eqn:Eq.
    + inversion Hm. auto.
    + exact (IH _ _ Hm k).
    + destruct (IH _ _ Hm k) as [H | [H1 H2]].
      * destruct (decide (k = cur ++ [SLASH] ++ sg)) as [-> | Hne].
        -- right. rewrite lookup_insert_eq in H. auto.
        -- left. rewrite lookup_insert_ne in H by congruence. exact H.
      * destruct (decide (k = cur ++ [SLASH] ++ sg)) as [-> | Hne].
        -- rewrite lookup_insert_eq in H1. discriminate.
        -- right. rewrite lookup_insert_ne in H1 by congruence. auto.
Qed.

Lemma mkdirSync_recursive_grows (d : jstr) (fs fs' : fsys) (r : exc unit) :
  mkdirSync_recursive d fs = (r, fs') ->
  forall k, fs' !! k = fs !! k \/ (fs !! k = None /\ fs' !! k = Some Dir).
Proof. apply mkdirp_segs_grows. Qed.

Lemma delete_file_success_inv (cwd baseDir P p : jstr) (fs fs' : fsys) :
  normalizePath cwd baseDir P = Ok p ->
  delete_file cwd baseDir P fs = (Ok (delete_success P), fs') ->
  fs' !! p = None.
Proof.
  intros Hp Hd. unfold delete_file, fs_catch, fs_bind, fs_lift in Hd. rewrite Hp in Hd.
  unfold existsSync, exists_in in Hd.
  destruct (fs !! p) as [[b|]|] eqn:Hf.
  - rewrite bool_decide_eq_true_2 in Hd by (eexists; reflexivity). cbn [negb] in Hd.
    unfold statSync_isFile in Hd. rewrite Hf in Hd. cbn [negb] in Hd.
    unfold unlinkSync in Hd. rewrite Hf in Hd. inversion Hd; subst. apply lookup_delete_eq.
  - rewrite bool_decide_eq_true_2 in Hd by (eexists; reflexivity). cbn [negb] in Hd.
    unfold statSync_isFile in Hd. rewrite Hf in Hd. cbn [negb] in Hd.
    unfold fs_ret, delete_success in Hd. inversion Hd.
  - rewrite bool_decide_eq_false_2 in Hd by (intros [x Hx]; discriminate). cbn [negb] in Hd.
    unfold fs_ret, delete_success in Hd. inversion Hd.
Qed.

(** Folding a read-only step over a list reads only. *)
Lemma fs_fold_readonly {A B : Type} (f : A -> B -> fsm A) (l : list B) :
  (forall acc x fs, snd (f acc x fs) = fs) ->
  forall acc fs, snd (fs_fold f acc l fs) = fs.
Proof.
  intros Hf. induction l as [|x xs IH]; intros acc fs; [reflexivity |].
  cbn [fs_fold]. unfold fs_bind.
  destruct (f acc x fs) as [[a|e] fs'] eqn:E; pose proof (Hf acc x fs) as H; rewrite E in H;
    cbn [snd] in H; subst fs'; [apply IH | reflexivity].
Qed.

Lemma getAllFiles_readonly (cwd baseDir : jstr) (fuel : nat) :
  forall dir acc fs, snd (getAllFiles cwd baseDir fuel dir acc fs) = fs.
Proof.
  induction fuel as [|fuel IH]; intros dir acc fs; [reflexivity |].
  cbn [getAllFiles]. unfold fs_bind at 1, readdirSync.
  destruct (fs !! dir) as [[b|]|]; try reflexivity.
  apply fs_fold_readonly. intros acc' file fs'. unfold fs_bind, statSync_isDirectory.
  destruct (fs' !! path_join [dir; file]) as [[b|]|]; try reflexivity. apply IH.
Qed.

(** Once the papers have been through [JSON.stringify] and [JSON.parse],
    the first [toDateString] call throws. *)
Lemma feed_items_after_json (toISOString dateString : Z -> jstr) (ps : list paper) :
  ps <> [] ->
  feed_items dateString (map (paper_json toISOString) ps)
  = Throw (lit "paper.published.toDateString is not a function")
  \/ feed_items dateString (map (paper_json toISOString) ps)
     = Throw (lit "Cannot read properties of null (reading 'toDateString')").
Proof.
  destruct ps as [|p ps]; [congruence |]. intros _.
  cbn [map feed_items]. unfold generateHTMLContent, paper_json. cbn [p_published].
  destruct (p_published p) as [[t|]|s|]; cbn [date_json call_toDateString]; auto.
Qed.


Section TimerLemmas.

Context {toStr : NumberToString}.

(** While the timer is armed, the call is pending and the timeout is
    positive. *)
Lemma on_event_timer_pending (t : js_number) (st : proc_state) (e : proc_event) :
  (ps_timer st = true -> ps_result st = None /\ js_positive t = true) ->
  ps_timer (on_event t st e) = true -> ps_result (on_event t st e) = None /\ js_positive t = true.
Proof.
  intros Hinv. destruct e; cbn [on_event]; unfold resolve, clear_timer.
  - cbn [ps_timer ps_result]. exact Hinv.
  - cbn [ps_timer ps_result]. exact Hinv.
  - destruct (ps_result st); cbn [ps_timer]; discriminate.
  - destruct (ps_result st); cbn [ps_timer]; discriminate.
  - destruct (ps_timer st) eqn:Et.
    + cbn [ps_result ps_timer]. destruct (ps_result st); cbn [ps_timer]; discriminate.
    + rewrite Et. discriminate.
Qed.

Lemma fold_timer_pending (t : js_number) (evs : list proc_event) (st : proc_state) :
  (ps_timer st = true -> ps_result st = None /\ js_positive t = true) ->
  ps_timer (fold_left (on_event t) evs st) = true ->
  ps_result (fold_left (on_event t) evs st) = None /\ js_positive t = true.
Proof.
  revert st; induction evs as [|e evs IH]; intros st Hinv; [exact Hinv |].
  cbn [fold_left]. apply IH. apply on_event_timer_pending. exact Hinv.
Qed.

Lemma run_events_timer_pending (t : js_number) (evs : list proc_event) :
  ps_timer (run_events t evs) = true ->
  ps_result (run_events t evs) = None /\ js_positive t = true.
Proof. apply fold_timer_pending. cbn [proc_init ps_timer ps_result]. auto. Qed.

Lemma fold_killed_by_timer (t : js_number) (evs : list proc_event) (st : proc_state) :
  ps_killed st = false -> ps_killed (fold_left (on_event t) evs st) = true ->
  exists ds rest, evs = ds ++ TimerExpires :: rest
                  /\ ps_timer (fold_left (on_event t) ds st) = true.
Proof.
  revert st; induction evs as [|e evs IH]; intros st Hk Hk'; [cbn in Hk'; congruence |].
  cbn [fold_left] in Hk'.
  destruct (ps_killed (on_event t st e)) eqn:Ek.
  - assert (He : e = TimerExpires /\ ps_timer st = true).
    { destruct e; cbn [on_event] in Ek; unfold resolve, clear_timer in Ek.
      - cbn [ps_killed] in Ek. congruence.
      - cbn [ps_killed] in Ek. congruence.
      - destruct (ps_result st); cbn [ps_killed ps_result] in Ek; congruence.
      - destruct (ps_result st); cbn [ps_killed ps_result] in Ek; congruence.
      - destruct (ps_timer st); [auto | congruence]. }
    destruct He as [-> Et]. exists [], evs. split; [reflexivity | exact Et].
  - destruct (IH _ Ek Hk') as (ds & rest & -> & Ht).
    exists (e :: ds), rest. split; [reflexivity | exact Ht].
Qed.

End TimerLemmas.

Lemma replace_no_backslash (s : jstr) : ~ In 92 s -> replace_backslash_n s = s.
Proof.
  induction s as [|c s IH]; intros Hn; [reflexivity |].
  cbn [replace_backslash_n]. assert (Hc : c <> 92) by (intros ->; apply Hn; left; reflexivity).
  apply Z.eqb_neq in Hc. rewrite Hc. rewrite IH; [reflexivity |]. intros Hi; apply Hn; right; exact Hi.
Qed.

(** ** [delete_file] *)

(** X1.  [delete_file] on an accepted path naming a regular file removes
    that entry and reports success. *)
Theorem delete_file_removes_file (cwd baseDir P p : jstr) (bytes : list Z) (fs : fsys) :
  normalizePath cwd baseDir P = Ok p ->
  fs !! p = Some (File bytes) ->
  delete_file cwd baseDir P fs = (Ok (delete_success P), delete p fs).
Proof.
  intros Hp Hf. unfold delete_file, fs_catch, fs_bind, fs_lift. rewrite Hp.
  unfold existsSync. rewrite (exists_in_some _ _ _ Hf). cbn [negb].
  unfold statSync_isFile. rewrite Hf. cbn [negb].
  unfold unlinkSync. rewrite Hf. reflexivity.
Qed.

Lemma delete_file_removes_file_witness :
  let fs0 : fsys := {[ lit "/home/u/proj/a.txt" := File [111] ]} in
  normalizePath (lit "/") (lit "/home/u/proj") (lit "a.txt") = Ok (lit "/home/u/proj/a.txt")
  /\ fs0 !! lit "/home/u/proj/a.txt" = Some (File [111])
  /\ delete_file (lit "/") (lit "/home/u/proj") (lit "a.txt") fs0
     = (Ok (delete_success (lit "a.txt")), delete (lit "/home/u/proj/a.txt") fs0).
Proof.
  intros fs0.
  assert (Hp : normalizePath (lit "/") (lit "/home/u/proj") (lit "a.txt")
               = Ok (lit "/home/u/proj/a.txt")) by (vm_compute; reflexivity).
  assert (Hf : fs0 !! lit "/home/u/proj/a.txt" = Some (File [111])) by (vm_compute; reflexivity).
  split; [exact Hp | split; [exact Hf |]].
  exact (delete_file_removes_file (lit "/") (lit "/home/u/proj") (lit "a.txt")
           (lit "/home/u/proj/a.txt") [111] fs0 Hp Hf).
Defined.

(** X2.  [delete_file] on an accepted path that names nothing, or names a
    directory, changes nothing and answers with the matching error text. *)
Theorem delete_file_refuses (cwd baseDir P p : jstr) (fs : fsys) :
  normalizePath cwd baseDir P = Ok p ->
  (fs !! p = None ->
   delete_file cwd baseDir P fs = (Ok (lit "Error: File '" ++ P ++ lit "' does not exist"), fs))
  /\ (fs !! p = Some Dir ->
      delete_file cwd baseDir P fs = (Ok (lit "Error: '" ++ P ++ lit "' is not a file"), fs)).
Proof.
  intros Hp. unfold delete_file, fs_catch, fs_bind, fs_lift. rewrite Hp. unfold existsSync.
  split; intros Hf.
  - rewrite (exists_in_none _ _ Hf). reflexivity.
  - rewrite (exists_in_some _ _ _ Hf). cbn [negb].
    unfold statSync_isFile. rewrite Hf. reflexivity.
Qed.

Lemma delete_file_refuses_witness :
  let fs0 : fsys := {[ lit "/home/u/proj/d" := Dir ]} in
  normalizePath (lit "/") (lit "/home/u/proj") (lit "d") = Ok (lit "/home/u/proj/d")
  /\ delete_file (lit "/") (lit "/home/u/proj") (lit "d") fs0
     = (Ok (lit "Error: '" ++ lit "d" ++ lit "' is not a file"), fs0).
Proof.
  intros fs0.
  assert (Hp : normalizePath (lit "/") (lit "/home/u/proj") (lit "d")
               = Ok (lit "/home/u/proj/d")) by (vm_compute; reflexivity).
  assert (Hd : fs0 !! lit "/home/u/proj/d" = Some Dir) by (vm_compute; reflexivity).
  split; [exact Hp |].
  exact (proj2 (delete_file_refuses (lit "/") (lit "/home/u/proj") (lit "d")
                  (lit "/home/u/proj/d") fs0 Hp) Hd).
Defined.

(** X3.  After a successful [delete_file], [read_file], [edit_file] and a
    second [delete_file] of the same path all report that the file does
    not exist. *)
Theorem after_delete_file_missing (cwd baseDir P p : jstr)
    (createPatch : jstr -> jstr -> jstr -> jstr -> jstr -> jstr) (X : jstr) (fs fs' : fsys) :
  normalizePath cwd baseDir P = Ok p ->
  delete_file cwd baseDir P fs = (Ok (delete_success P), fs') ->
  read_file cwd baseDir P fs' = (Ok (lit "Error: File '" ++ P ++ lit "' does not exist"), fs')
  /\ edit_file cwd baseDir createPatch P X fs'
     = (Ok (lit "Error: File '" ++ P ++ lit "' does not exist"), fs')
  /\ delete_file cwd baseDir P fs' = (Ok (lit "Error: File '" ++ P ++ lit "' does not exist"), fs').
Proof.
  intros Hp Hd. pose proof (delete_file_success_inv _ _ _ _ _ _ Hp Hd) as Hn.
  unfold read_file, edit_file, delete_file, fs_catch, fs_bind, fs_lift. rewrite Hp.
  unfold existsSync. rewrite (exists_in_none _ _ Hn). auto.
Qed.

Lemma after_delete_file_missing_witness :
  let fs0 : fsys := {[ lit "/home/u/proj/a.txt" := File [111] ]} in
  let fs1 := snd (delete_file (lit "/") (lit "/home/u/proj") (lit "a.txt") fs0) in
  normalizePath (lit "/") (lit "/home/u/proj") (lit "a.txt") = Ok (lit "/home/u/proj/a.txt")
  /\ delete_file (lit "/") (lit "/home/u/proj") (lit "a.txt") fs0
     = (Ok (delete_success (lit "a.txt")), fs1)
  /\ read_file (lit "/") (lit "/home/u/proj") (lit "a.txt") fs1
     = (Ok (lit "Error: File '" ++ lit "a.txt" ++ lit "' does not exist"), fs1).
Proof.
  intros fs0 fs1.
  assert (Hp : normalizePath (lit "/") (lit "/home/u/proj") (lit "a.txt")
               = Ok (lit "/home/u/proj/a.txt")) by (vm_compute; reflexivity).
  assert (Hd : delete_file (lit "/") (lit "/home/u/proj") (lit "a.txt") fs0
               = (Ok (delete_success (lit "a.txt")), fs1)) by (vm_compute; reflexivity).
  split; [exact Hp | split; [exact Hd |]].
  exact (proj1 (after_delete_file_missing (lit "/") (lit "/home/u/proj") (lit "a.txt")
                  (lit "/home/u/proj/a.txt") (fun _ o n _ _ => o ++ n) [110] fs0 fs1 Hp Hd)).
Defined.

(** ** [read_file] *)

(** X4.  [read_file] never changes the file system, whatever its outcome. *)
Theorem read_file_readonly (cwd baseDir P : jstr) (fs : fsys) :
  snd (read_file cwd baseDir P fs) = fs.
Proof.
  unfold read_file, fs_catch, fs_bind, fs_lift.
  destruct (normalizePath cwd baseDir P) as [p|m]; [| reflexivity].
  unfold existsSync. destruct (negb (exists_in fs p)); [reflexivity |].
  unfold statSync_isFile, readFileSync.
  destruct (fs !! p) as [[b|]|] eqn:E; cbn [negb]; unfold fs_ret; rewrite ?E; reflexivity.
Qed.

(** X5.  [read_file] on an accepted path that names nothing, or names a
    directory, answers with the matching error text. *)
Theorem read_file_refuses (cwd baseDir P p : jstr) (fs : fsys) :
  normalizePath cwd baseDir P = Ok p ->
  (fs !! p = None ->
   read_file cwd baseDir P fs = (Ok (lit "Error: File '" ++ P ++ lit "' does not exist"), fs))
  /\ (fs !! p = Some Dir ->
      read_file cwd baseDir P fs = (Ok (lit "Error: '" ++ P ++ lit "' is not a file"), fs)).
Proof.
  intros Hp. unfold read_file, fs_catch, fs_bind, fs_lift. rewrite Hp. unfold existsSync.
  split; intros Hf.
  - rewrite (exists_in_none _ _ Hf). reflexivity.
  - rewrite (exists_in_some _ _ _ Hf). cbn [negb].
    unfold statSync_isFile. rewrite Hf. reflexivity.
Qed.

Lemma read_file_refuses_witness :
  let fs0 : fsys := {[ lit "/home/u/proj" := Dir ]} in
  normalizePath (lit "/") (lit "/home/u/proj") (lit "b.txt") = Ok (lit "/home/u/proj/b.txt")
  /\ read_file (lit "/") (lit "/home/u/proj") (lit "b.txt") fs0
     = (Ok (lit "Error: File '" ++ lit "b.txt" ++ lit "' does not exist"), fs0).
Proof.
  intros fs0.
  assert (Hp : normalizePath (lit "/") (lit "/home/u/proj") (lit "b.txt")
               = Ok (lit "/home/u/proj/b.txt")) by (vm_compute; reflexivity).
  assert (Hn : fs0 !! lit "/home/u/proj/b.txt" = None) by (vm_compute; reflexivity).
  split; [exact Hp |].
  exact (proj1 (read_file_refuses (lit "/") (lit "/home/u/proj") (lit "b.txt")
                  (lit "/home/u/proj/b.txt") fs0 Hp) Hn).
Defined.

(** ** [write_file] and [edit_file] *)

(** X6.  [write_file] changes no entry other than its target path, except
    that it may create directories where there was nothing. *)
Theorem write_file_preserves_others (cwd baseDir P X p : jstr) (fs fs' : fsys) (r : exc jstr) :
  normalizePath cwd baseDir P = Ok p ->
  write_file cwd baseDir P X fs = (r, fs') ->
  forall k, k <> p -> fs' !! k = fs !! k \/ (fs !! k = None /\ fs' !! k = Some Dir).
Proof.
  intros Hp Hw k Hk. unfold write_file, fs_catch, fs_bind, fs_lift in Hw.
  rewrite Hp in Hw. unfold existsSync in Hw.
  destruct (negb (exists_in fs (path_dirname p))).
  - destruct (mkdirSync_recursive (path_dirname p) fs) as [[[]|m] fs1] eqn:Em.
    + destruct (writeFileSync p X fs1) as [[[]|m] fs2] eqn:Ew;
        unfold fs_ret, handle_error in Hw; inversion Hw; subst;
        rewrite (writeFileSync_other _ _ _ _ _ k Ew Hk);
        exact (mkdirSync_recursive_grows _ _ _ _ Em k).
    + unfold handle_error, fs_ret in Hw. inversion Hw; subst.
      exact (mkdirSync_recursive_grows _ _ _ _ Em k).
  - unfold fs_ret at 1 in Hw.
    destruct (writeFileSync p X fs) as [[[]|m] fs2] eqn:Ew;
      unfold fs_ret, handle_error in Hw; inversion Hw; subst;
      left; exact (writeFileSync_other _ _ _ _ _ k Ew Hk).
Qed.

Lemma write_file_preserves_others_witness :
  let fs0 : fsys := {[ lit "/home/u/proj" := Dir; lit "/home/u/proj/keep.txt" := File [107] ]} in
  let res := write_file (lit "/") (lit "/home/u/proj") (lit "a/b.txt") [104] fs0 in
  normalizePath (lit "/") (lit "/home/u/proj") (lit "a/b.txt") = Ok (lit "/home/u/proj/a/b.txt")
  /\ res = (fst res, snd res)
  /\ lit "/home/u/proj/keep.txt" <> lit "/home/u/proj/a/b.txt"
  /\ (snd res !! lit "/home/u/proj/keep.txt" = fs0 !! lit "/home/u/proj/keep.txt"
      \/ (fs0 !! lit "/home/u/proj/keep.txt" = None
          /\ snd res !! lit "/home/u/proj/keep.txt" = Some Dir)).
Proof.
  intros fs0 res.
  assert (Hp : normalizePath (lit "/") (lit "/home/u/proj") (lit "a/b.txt")
               = Ok (lit "/home/u/proj/a/b.txt")) by (vm_compute; reflexivity).
  assert (Hw : res = (fst res, snd res)) by (vm_compute; reflexivity).
  assert (Hk : lit "/home/u/proj/keep.txt" <> lit "/home/u/proj/a/b.txt")
    by (vm_compute; discriminate).
  split; [exact Hp | split; [exact Hw | split; [exact Hk |]]].
  exact (write_file_preserves_others (lit "/") (lit "/home/u/proj") (lit "a/b.txt") [104]
           (lit "/home/u/proj/a/b.txt") fs0 (snd res) (fst res) Hp Hw
           (lit "/home/u/proj/keep.txt") Hk).
Defined.

(** X7.  [write_file] to a path that is an existing directory fails with
    [EISDIR] from [open], reported as text, and changes nothing. *)
Theorem write_file_on_directory (cwd baseDir P X p : jstr) (fs : fsys) :
  normalizePath cwd baseDir P = Ok p ->
  fs !! p = Some Dir -> fs !! path_dirname p = Some Dir ->
  write_file cwd baseDir P X fs
  = (Ok (lit "Error writing file: " ++ eisdir (lit "open") p), fs).
Proof.
  intros Hp Hd Hpar. unfold write_file, fs_catch, fs_bind, fs_lift. rewrite Hp.
  unfold existsSync. rewrite (exists_in_some _ _ _ Hpar). cbn [negb]. unfold fs_ret at 1.
  unfold writeFileSync. rewrite Hd. reflexivity.
Qed.

Lemma write_file_on_directory_witness :
  let fs0 : fsys := {[ lit "/home/u/proj" := Dir; lit "/home/u/proj/d" := Dir ]} in
  normalizePath (lit "/") (lit "/home/u/proj") (lit "d") = Ok (lit "/home/u/proj/d")
  /\ fs0 !! lit "/home/u/proj/d" = Some Dir
  /\ fs0 !! path_dirname (lit "/home/u/proj/d") = Some Dir
  /\ write_file (lit "/") (lit "/home/u/proj") (lit "d") [104] fs0
     = (Ok (lit "Error writing file: " ++ eisdir (lit "open") (lit "/home/u/proj/d")), fs0).
Proof.
  intros fs0.
  assert (Hp : normalizePath (lit "/") (lit "/home/u/proj") (lit "d")
               = Ok (lit "/home/u/proj/d")) by (vm_compute; reflexivity).
  assert (Hd : fs0 !! lit "/home/u/proj/d" = Some Dir) by (vm_compute; reflexivity).
  assert (Hpar : fs0 !! path_dirname (lit "/home/u/proj/d") = Some Dir)
    by (vm_compute; reflexivity).
  split; [exact Hp | split; [exact Hd | split; [exact Hpar |]]].
  exact (write_file_on_directory (lit "/") (lit "/home/u/proj") (lit "d") [104]
           (lit "/home/u/proj/d") fs0 Hp Hd Hpar).
Defined.

(** X8.  [edit_file] on a path that is an existing directory fails: it
    answers with an [Error editing file: ] text and writes nothing. *)
Theorem edit_file_on_directory (cwd baseDir : jstr)
    (createPatch : jstr -> jstr -> jstr -> jstr -> jstr -> jstr) (P X p : jstr) (fs : fsys) :
  normalizePath cwd baseDir P = Ok p ->
  fs !! p = Some Dir ->
  exists msg, edit_file cwd baseDir createPatch P X fs = (Ok (lit "Error editing file: " ++ msg), fs).
Proof.
  intros Hp Hd. unfold edit_file, fs_catch, fs_bind, fs_lift. rewrite Hp.
  unfold existsSync. rewrite (exists_in_some _ _ _ Hd). cbn [negb].
  unfold readFileSync. rewrite Hd. eexists. reflexivity.
Qed.

Lemma edit_file_on_directory_witness :
  let fs0 : fsys := {[ lit "/home/u/proj/d" := Dir ]} in
  normalizePath (lit "/") (lit "/home/u/proj") (lit "d") = Ok (lit "/home/u/proj/d")
  /\ fs0 !! lit "/home/u/proj/d" = Some Dir
  /\ exists msg, edit_file (lit "/") (lit "/home/u/proj") (fun _ o n _ _ => o ++ n) (lit "d") [104] fs0
                 = (Ok (lit "Error editing file: " ++ msg), fs0).
Proof.
  intros fs0.
  assert (Hp : normalizePath (lit "/") (lit "/home/u/proj") (lit "d")
               = Ok (lit "/home/u/proj/d")) by (vm_compute; reflexivity).
  assert (Hd : fs0 !! lit "/home/u/proj/d" = Some Dir) by (vm_compute; reflexivity).
  split; [exact Hp | split; [exact Hd |]].
  exact (edit_file_on_directory (lit "/") (lit "/home/u/proj") (fun _ o n _ _ => o ++ n)
           (lit "d") [104] (lit "/home/u/proj/d") fs0 Hp Hd).
Defined.

(** X9.  Reading a regular file back after [edit_file] gives the new
    content, when its surrogates are all paired. *)
Theorem edit_then_read (cwd baseDir : jstr)
    (createPatch : jstr -> jstr -> jstr -> jstr -> jstr -> jstr) (P X p : jstr)
    (bytes : list Z) (fs : fsys) :
  normalizePath cwd baseDir P = Ok p ->
  fs !! p = Some (File bytes) ->
  well_formed_utf16 X = true ->
  read_file cwd baseDir P (snd (edit_file cwd baseDir createPatch P X fs))
  = (Ok X, snd (edit_file cwd baseDir createPatch P X fs)).
Proof.
  intros Hp Hf Hwf.
  assert (He : snd (edit_file cwd baseDir createPatch P X fs) = <[p := File (utf8_encode X)]> fs).
  { unfold edit_file, fs_catch, fs_bind, fs_lift. rewrite Hp.
    unfold existsSync. rewrite (exists_in_some _ _ _ Hf). cbn [negb].
    unfold readFileSync. rewrite Hf. unfold writeFileSync. rewrite Hf. reflexivity. }
  rewrite He. rewrite (read_file_file cwd baseDir P p (utf8_encode X)).
  - rewrite utf8_decode_encode by exact Hwf. reflexivity.
  - exact Hp.
  - apply lookup_insert_eq.
Qed.

Lemma edit_then_read_witness :
  let fs0 : fsys := {[ lit "/home/u/proj/a.txt" := File [111] ]} in
  let fs1 := snd (edit_file (lit "/") (lit "/home/u/proj") (fun _ o n _ _ => o ++ n)
                    (lit "a.txt") [104; 55357; 56832] fs0) in
  normalizePath (lit "/") (lit "/home/u/proj") (lit "a.txt") = Ok (lit "/home/u/proj/a.txt")
  /\ fs0 !! lit "/home/u/proj/a.txt" = Some (File [111])
  /\ well_formed_utf16 [104; 55357; 56832] = true
  /\ read_file (lit "/") (lit "/home/u/proj") (lit "a.txt") fs1 = (Ok [104; 55357; 56832], fs1).
Proof.
  intros fs0 fs1.
  assert (Hp : normalizePath (lit "/") (lit "/home/u/proj") (lit "a.txt")
               = Ok (lit "/home/u/proj/a.txt")) by (vm_compute; reflexivity).
  assert (Hf : fs0 !! lit "/home/u/proj/a.txt" = Some (File [111])) by (vm_compute; reflexivity).
  assert (Hwf : well_formed_utf16 [104; 55357; 56832] = true) by reflexivity.
  split; [exact Hp | split; [exact Hf | split; [exact Hwf |]]].
  exact (edit_then_read (lit "/") (lit "/home/u/proj") (fun _ o n _ _ => o ++ n) (lit "a.txt")
           [104; 55357; 56832] (lit "/home/u/proj/a.txt") [111] fs0 Hp Hf Hwf).
Defined.

(** ** All file tools on a refused path *)

(** X10.  When the confinement check refuses a path, its message is
    [Access denied: <path> is outside the base directory], and each of
    the five file tools answers with its own prefix followed by that
    message, leaving the file system unchanged. *)
Theorem tools_access_denied (cwd baseDir : jstr)
    (createPatch : jstr -> jstr -> jstr -> jstr -> jstr -> jstr) (minimatch : jstr -> jstr -> bool)
    (P X pattern m : jstr) (fs : fsys) :
  normalizePath cwd baseDir P = Throw m ->
  m = lit "Access denied: " ++ P ++ lit " is outside the base directory"
  /\ read_file cwd baseDir P fs = (Ok (lit "Error reading file: " ++ m), fs)
  /\ write_file cwd baseDir P X fs = (Ok (lit "Error writing file: " ++ m), fs)
  /\ edit_file cwd baseDir createPatch P X fs = (Ok (lit "Error editing file: " ++ m), fs)
  /\ delete_file cwd baseDir P fs = (Ok (lit "Error deleting file: " ++ m), fs)
  /\ list_files cwd baseDir minimatch pattern (Some P) fs
     = (Ok (lit "Error listing files: " ++ m), fs).
Proof.
  intros Hp. split.
  - unfold normalizePath in Hp.
    destruct (negb _); [injection Hp as <-; reflexivity | discriminate].
  - unfold read_file, write_file, edit_file, delete_file, list_files, fs_catch, fs_bind, fs_lift.
    cbn [default id]. rewrite Hp. repeat split.
Qed.

Lemma tools_access_denied_witness :
  let m := lit "Access denied: ../etc/passwd is outside the base directory" in
  normalizePath (lit "/") (lit "/home/u/proj") (lit "../etc/passwd") = Throw m
  /\ delete_file (lit "/") (lit "/home/u/proj") (lit "../etc/passwd") ∅
     = (Ok (lit "Error deleting file: " ++ m), ∅).
Proof.
  intros m.
  assert (Hp : normalizePath (lit "/") (lit "/home/u/proj") (lit "../etc/passwd") = Throw m)
    by (vm_compute; reflexivity).
  split; [exact Hp |].
  destruct (tools_access_denied (lit "/") (lit "/home/u/proj") (fun _ o n _ _ => o ++ n)
              (fun _ _ => true) (lit "../etc/passwd") [104] (lit "*") m ∅ Hp)
    as (_ & _ & _ & _ & Hd & _).
  exact Hd.
Defined.

(** ** [list_files] *)

(** X11.  [list_files] never changes the file system, whatever its
    outcome. *)
Theorem list_files_readonly (cwd baseDir : jstr) (minimatch : jstr -> jstr -> bool)
    (pattern : jstr) (directory : option jstr) (fs : fsys) :
  snd (list_files cwd baseDir minimatch pattern directory fs) = fs.
Proof.
  unfold list_files, fs_catch, fs_bind, fs_lift.
  destruct (normalizePath cwd baseDir (default (lit ".") directory)) as [p|m]; [| reflexivity].
  unfold existsSync. destruct (exists_in fs p); cbn [negb orb]; [| reflexivity].
  unfold statSync_isDirectory.
  destruct (fs !! p) as [[b|]|]; cbn [negb orb]; try reflexivity.
  pose proof (getAllFiles_readonly cwd baseDir (size fs) p [] fs) as H.
  destruct (getAllFiles cwd baseDir (size fs) p [] fs) as [[a|e] fs'];
    cbn [snd] in H; subst fs'; [| reflexivity].
  destruct (filter _ a); reflexivity.
Qed.

(** X12.  [list_files] on an accepted directory argument that names
    nothing or a regular file answers that the directory does not exist or
    is not a directory. *)
Theorem list_files_not_directory (cwd baseDir : jstr) (minimatch : jstr -> jstr -> bool)
    (pattern D p : jstr) (fs : fsys) :
  normalizePath cwd baseDir D = Ok p ->
  fs !! p <> Some Dir ->
  list_files cwd baseDir minimatch pattern (Some D) fs = (Ok (not_a_directory D), fs).
Proof.
  intros Hp Hnd. unfold list_files, fs_catch, fs_bind, fs_lift. cbn [default id]. rewrite Hp.
  unfold existsSync, exists_in, statSync_isDirectory.
  destruct (fs !! p) as [[b|]|] eqn:E.
  - rewrite bool_decide_eq_true_2 by (eexists; reflexivity). cbn [negb]. rewrite E. reflexivity.
  - congruence.
  - rewrite bool_decide_eq_false_2 by (intros [x Hx]; discriminate). reflexivity.
Qed.

Lemma list_files_not_directory_witness :
  let fs0 : fsys := {[ lit "/home/u/proj/a.txt" := File [111] ]} in
  normalizePath (lit "/") (lit "/home/u/proj") (lit "a.txt") = Ok (lit "/home/u/proj/a.txt")
  /\ fs0 !! lit "/home/u/proj/a.txt" <> Some Dir
  /\ list_files (lit "/") (lit "/home/u/proj") (fun _ _ => true) (lit "*") (Some (lit "a.txt")) fs0
     = (Ok (not_a_directory (lit "a.txt")), fs0).
Proof.
  intros fs0.
  assert (Hp : normalizePath (lit "/") (lit "/home/u/proj") (lit "a.txt")
               = Ok (lit "/home/u/proj/a.txt")) by (vm_compute; reflexivity).
  assert (Hn : fs0 !! lit "/home/u/proj/a.txt" <> Some Dir) by (vm_compute; discriminate).
  split; [exact Hp | split; [exact Hn |]].
  exact (list_files_not_directory (lit "/") (lit "/home/u/proj") (fun _ _ => true) (lit "*")
           (lit "a.txt") (lit "/home/u/proj/a.txt") fs0 Hp Hn).
Defined.

(** ** The arxiv tools *)

Section ArxivProofs.

Variable toISOString : Z -> jstr.
Variable dateString : Z -> jstr.
Variable date_parse : jstr -> option Z.
Variable arxiv_response : jstr -> exc (option (one_or_many xml_entry)).
Variable rss2 : Z -> list feed_item -> jstr.
Variable process_cwd : jstr.
Variable outputDir : jstr.
Variable cache_json : Z -> list paper -> jstr.
Variable cache_parse : jstr -> option cache_file.

#[local] Abbreviation fetch :=
  (arxiv_fetch dateString date_parse arxiv_response rss2 process_cwd outputDir cache_json
     cache_parse).
#[local] Abbreviation load := (loadFromCache process_cwd cache_parse).
#[local] Abbreviation key := (fs_key process_cwd).

(** The configuration [arxiv_fetch] passes to [fetchAndSaveRSS]. *)
#[local] Abbreviation config args :=
  (mk_fetch_config (search_query args) (Some (max_results args))
     (Some (sort_by args)) (Some (sort_order args)) (Some (output_file args))).

#[local] Abbreviation fetched args := (fetchArxivPapers date_parse arxiv_response (config args)).

#[local] Abbreviation out_path args :=
  (path_join [outputDir; opt_str_or (Some (output_file args)) default_outputFile]).

Lemma writeFileSync_rel_stores (p c : jstr) (fs fs' : fsys) :
  writeFileSync_rel process_cwd p c fs = (Ok tt, fs') ->
  fs' !! key p = Some (File (utf8_encode c)).
Proof.
  intros Hw. unfold writeFileSync_rel in Hw. cbv beta zeta in Hw.
  destruct (fs !! key p) as [[b|]|];
    [| | destruct (fs !! path_dirname (key p)) as [[b|]|]];
    inversion Hw; subst; apply lookup_insert_eq.
Qed.

Lemma writeFileSync_rel_other (p c : jstr) (fs fs' : fsys) (r : exc unit) (k : jstr) :
  writeFileSync_rel process_cwd p c fs = (r, fs') -> k <> key p -> fs' !! k = fs !! k.
Proof.
  intros Hw Hk. unfold writeFileSync_rel in Hw. cbv beta zeta in Hw.
  destruct (fs !! key p) as [[b|]|];
    [| | destruct (fs !! path_dirname (key p)) as [[b|]|]];
    inversion Hw; subst; try reflexivity; apply lookup_insert_ne; congruence.
Qed.

(** A successful [write_output] holds the feed at the output path and
    keeps every other entry that was there. *)
Lemma write_output_stores (outputPath c : jstr) (fs fs' : fsys) :
  write_output process_cwd outputDir outputPath c fs = (Ok tt, fs') ->
  fs' !! key outputPath = Some (File (utf8_encode c))
  /\ forall k v, k <> key outputPath -> fs !! k = Some v -> fs' !! k = Some v.
Proof.
  intros Hw. unfold write_output, fs_bind, existsSync_rel, existsSync in Hw.
  destruct (negb (exists_in fs (key outputDir))).
  - destruct (mkdirSync_recursive (key outputDir) fs) as [[[]|m] fs1] eqn:Em; [| discriminate].
    split; [exact (writeFileSync_rel_stores _ _ _ _ Hw) |].
    intros k v Hk Hv. rewrite (writeFileSync_rel_other _ _ _ _ _ k Hw Hk).
    destruct (mkdirSync_recursive_grows _ _ _ _ Em k) as [H | [H _]]; congruence.
  - unfold fs_ret in Hw.
    split; [exact (writeFileSync_rel_stores _ _ _ _ Hw) |].
    intros k v Hk Hv. rewrite (writeFileSync_rel_other _ _ _ _ _ k Hw Hk). exact Hv.
Qed.

Lemma arxiv_fetch_success_inv (now : Z) (args : fetch_args) (fs fs' : fsys) (text : jstr) :
  load now fs = None ->
  fetch now args fs = ((text, false), fs') ->
  fetched args <> []
  /\ exists items, feed_items dateString (fetched args) = Ok items
     /\ text = lit "RSS feed saved to " ++ out_path args ++ [10] ++ lit "Processed "
               ++ num_str (Z.of_nat (length (fetched args))) ++ lit " papers."
     /\ fs' !! key (out_path args) = Some (File (utf8_encode (rss2 now items)))
     /\ (key (out_path args) <> key cache_file_path ->
         fs' !! key cache_file_path
         = Some (File (utf8_encode (cache_json now (fetched args))))).
Proof.
  intros Hmiss Hf. unfold arxiv_fetch, fetchAndSaveRSS in Hf. rewrite Hmiss in Hf.
  cbv zeta in Hf.
  destruct (0 <? Z.of_nat (length (fetched args))) eqn:Hlen; cbn beta iota in Hf;
    [| discriminate].
  unfold saveToCache in Hf.
  destruct (writeFileSync_rel process_cwd cache_file_path (cache_json now (fetched args)) fs)
    as [[[]|m] fs1] eqn:Es; cbn beta iota in Hf; [| discriminate].
  rewrite Hlen in Hf. unfold rss_content in Hf.
  destruct (feed_items dateString (fetched args)) as [items|m] eqn:Ef; cbn beta iota in Hf;
    [| discriminate].
  cbn [fc_outputFile] in Hf.
  destruct (write_output process_cwd outputDir (out_path args) (rss2 now items) fs1)
    as [[[]|m] fs2] eqn:Ew; cbn beta iota in Hf; [| discriminate].
  cbn [success negb message papersCount] in Hf. injection Hf as <- <-.
  destruct (write_output_stores _ _ _ _ Ew) as [Hout Hkeep].
  split; [intros Hn; rewrite Hn in Hlen; discriminate |].
  exists items. split; [reflexivity |]. split; [reflexivity |]. split; [exact Hout |].
  intros Hne. apply Hkeep; [congruence |]. exact (writeFileSync_rel_stores _ _ _ _ Es).
Qed.

Lemma cached_entries_json (i : Z) (ps : list paper) :
  cached_entries i (map (paper_json toISOString) ps) = cached_entries i ps.
Proof.
  revert i; induction ps as [|p ps IH]; intros i; [reflexivity |].
  cbn [map cached_entries]. rewrite IH. reflexivity.
Qed.

(** After a successful fetch that wrote the cache, and while the feed is
    not written over the cache file, [loadFromCache] gives back the
    papers as [JSON.parse] reads them, until the cache is an hour old. *)
Lemma load_after_fetch (now0 now1 : Z) (args : fetch_args) (fs0 fs1 : fsys) (text0 : jstr) :
  load now0 fs0 = None ->
  fetch now0 args fs0 = ((text0, false), fs1) ->
  key (out_path args) <> key cache_file_path ->
  cache_parse (utf8_decode (utf8_encode (cache_json now0 (fetched args))))
    = Some (mk_cache now0 (map (paper_json toISOString) (fetched args))) ->
  fetched args <> []
  /\ load now1 fs1
     = if now1 - now0 >? cacheExpiry then None
       else Some (map (paper_json toISOString) (fetched args)).
Proof.
  intros Hmiss Hf Hne Hparse.
  destruct (arxiv_fetch_success_inv now0 args fs0 fs1 text0 Hmiss Hf)
    as (Hfetched & _ & _ & _ & _ & Hcache).
  specialize (Hcache Hne). split; [exact Hfetched |].
  unfold loadFromCache. cbv zeta.
  rewrite (exists_in_some _ _ _ Hcache). cbn [negb].
  unfold readFileSync. rewrite Hcache, Hparse. reflexivity.
Qed.

(** X13.  When the cache is empty or expired and [arxiv_fetch] succeeds,
    the papers fetched are not empty, the feed built from them is written
    to [<outputDir>/<output_file>], the text names that path and the
    number of papers, and, unless that path is the cache file itself,
    the cache file holds [JSON.stringify] of the papers with the current
    time. *)
Theorem arxiv_fetch_writes_feed (now : Z) (args : fetch_args) (fs fs' : fsys) (text : jstr) :
  load now fs = None ->
  fetch now args fs = ((text, false), fs') ->
  fetched args <> []
  /\ exists items, feed_items dateString (fetched args) = Ok items
     /\ text = lit "RSS feed saved to " ++ out_path args ++ [10] ++ lit "Processed "
               ++ num_str (Z.of_nat (length (fetched args))) ++ lit " papers."
     /\ fs' !! key (out_path args) = Some (File (utf8_encode (rss2 now items)))
     /\ (key (out_path args) <> key cache_file_path ->
         fs' !! key cache_file_path
         = Some (File (utf8_encode (cache_json now (fetched args))))).
Proof. apply arxiv_fetch_success_inv. Qed.

(** X14.  After an [arxiv_fetch] that fetched and succeeded without
    writing the feed over the cache file, and when [JSON.parse] reads the
    cache back, a second [arxiv_fetch] within the cache lifetime (one
    hour) fails: the papers read back from the cache have their dates as
    strings (or [null]), and [generateHTMLContent]'s [toDateString] call
    throws. *)
Theorem arxiv_fetch_fails_within_cache_lifetime (now0 now1 : Z) (args0 args1 : fetch_args)
    (fs0 fs1 : fsys) (text0 : jstr) :
  load now0 fs0 = None ->
  fetch now0 args0 fs0 = ((text0, false), fs1) ->
  key (out_path args0) <> key cache_file_path ->
  cache_parse (utf8_decode (utf8_encode (cache_json now0 (fetched args0))))
    = Some (mk_cache now0 (map (paper_json toISOString) (fetched args0))) ->
  now1 - now0 <= cacheExpiry ->
  fst (fetch now1 args1 fs1)
    = (lit "Error: paper.published.toDateString is not a function", true)
  \/ fst (fetch now1 args1 fs1)
    = (lit "Error: Cannot read properties of null (reading 'toDateString')", true).
Proof.
  intros Hmiss Hf Hne Hparse Hage.
  destruct (load_after_fetch now0 now1 args0 fs0 fs1 text0 Hmiss Hf Hne Hparse)
    as [Hfetched Hload].
  destruct (Z.gtb_spec (now1 - now0) cacheExpiry) as [Hgt | _]; [lia |].
  assert (Hlen : (0 <? Z.of_nat (length (map (paper_json toISOString) (fetched args0)))) = true).
  { rewrite length_map. destruct (fetched args0); [congruence |]. cbn [length].
    apply Z.ltb_lt. lia. }
  unfold arxiv_fetch, fetchAndSaveRSS. rewrite Hload. cbv zeta. cbn beta iota.
  rewrite Hlen. unfold rss_content.
  destruct (feed_items_after_json toISOString dateString (fetched args0) Hfetched) as [He | He];
    rewrite He; [left | right]; reflexivity.
Qed.

(** X15.  After an [arxiv_fetch] that fetched and succeeded without
    writing the feed over the cache file, and when [JSON.parse] reads the
    cache back, [arxiv_get_cached] lists those papers (titles, authors,
    categories and links) while the cache is at most one hour old, and
    reports an empty cache afterwards. *)
Theorem arxiv_get_cached_after_fetch (now0 now1 : Z) (args : fetch_args)
    (fs0 fs1 : fsys) (text0 : jstr) :
  load now0 fs0 = None ->
  fetch now0 args fs0 = ((text0, false), fs1) ->
  key (out_path args) <> key cache_file_path ->
  cache_parse (utf8_decode (utf8_encode (cache_json now0 (fetched args))))
    = Some (mk_cache now0 (map (paper_json toISOString) (fetched args))) ->
  (now1 - now0 <= cacheExpiry ->
   arxiv_get_cached process_cwd cache_parse now1 fs1
   = (lit "Found " ++ num_str (Z.of_nat (length (fetched args))) ++ lit " papers in cache:"
      ++ [10; 10] ++ join_str [10] (cached_entries 0 (fetched args)), false))
  /\ (now1 - now0 > cacheExpiry ->
      arxiv_get_cached process_cwd cache_parse now1 fs1 = (no_papers_in_cache, true)).
Proof.
  intros Hmiss Hf Hne Hparse.
  destruct (load_after_fetch now0 now1 args fs0 fs1 text0 Hmiss Hf Hne Hparse)
    as [Hfetched Hload].
  unfold arxiv_get_cached. rewrite Hload.
  split; intros Hage.
  - destruct (Z.gtb_spec (now1 - now0) cacheExpiry); [lia |].
    rewrite <- (cached_entries_json 0 (fetched args)),
      <- (length_map (paper_json toISOString) (fetched args)).
    destruct (fetched args) as [|p ps]; [congruence |]. reflexivity.
  - destruct (Z.gtb_spec (now1 - now0) cacheExpiry); [reflexivity | lia].
Qed.

(** X16.  When the cache is empty or expired and the request yields no
    paper (an error, or a feed without entries), [arxiv_fetch] answers
    [No papers fetched from Arxiv] as an error and changes nothing. *)
Theorem arxiv_fetch_nothing_fetched (now : Z) (args : fetch_args) (fs : fsys) :
  load now fs = None ->
  fetched args = [] ->
  fetch now args fs = ((lit "No papers fetched from Arxiv", true), fs).
Proof.
  intros Hmiss Hnone. unfold arxiv_fetch, fetchAndSaveRSS. rewrite Hmiss. cbv zeta.
  rewrite Hnone. reflexivity.
Qed.

(** X17.  [arxiv_fetch] treats [max_results = 0] as the default 100 and
    an empty [search_query] as an omitted one, because [||] falls back on
    falsy values. *)
Theorem arxiv_fetch_falsy_arguments (now : Z) (q : option jstr) (n : Z) (sb so of : jstr)
    (fs : fsys) :
  arxiv_fetch dateString date_parse arxiv_response rss2 process_cwd outputDir cache_json
    cache_parse now (mk_fetch_args q 0 sb so of) fs
  = fetch now (mk_fetch_args q 100 sb so of) fs
  /\ arxiv_fetch dateString date_parse arxiv_response rss2 process_cwd outputDir cache_json
       cache_parse now (mk_fetch_args (Some []) n sb so of) fs
     = fetch now (mk_fetch_args None n sb so of) fs.
Proof.
  split; unfold arxiv_fetch, fetchAndSaveRSS, fetchArxivPapers;
    cbn [search_query max_results sort_by sort_order output_file].
  - assert (Hu : fetch_url (mk_fetch_config q (Some 0) (Some sb) (Some so) (Some of))
                 = fetch_url (mk_fetch_config q (Some 100) (Some sb) (Some so) (Some of)))
      by reflexivity.
    rewrite Hu. reflexivity.
  - assert (Hu : fetch_url (mk_fetch_config (Some []) (Some n) (Some sb) (Some so) (Some of))
                 = fetch_url (mk_fetch_config None (Some n) (Some sb) (Some so) (Some of)))
      by reflexivity.
    rewrite Hu. reflexivity.
Qed.

End ArxivProofs.

Lemma arxiv_fetch_writes_feed_witness :
  let iso := fun _ : Z => lit "2024-01-01T00:00:00.000Z" in
  let ds := fun _ : Z => lit "Mon Jan 01 2024" in
  let dp := fun _ : jstr => Some 0 in
  let resp := fun _ : jstr =>
    (Ok (Some (One (mk_entry (lit "http://arxiv.org/abs/2401.00001v1") (lit "T") (lit "S")
                      (lit "2024-01-01T00:00:00Z") (lit "2024-01-01T00:00:00Z")
                      (One (mk_author (lit "A"))) (One (mk_category (lit "cs.AI")))
                      (One (mk_link (Some (lit "pdf")) (Some (lit "http://arxiv.org/pdf/2401.00001v1")))))))
     : exc (option (one_or_many xml_entry))) in
  let rss := fun (_ : Z) (_ : list feed_item) => lit "<rss/>" in
  let args := mk_fetch_args None 100 (lit "submittedDate") (lit "descending") (lit "feed.xml") in
  let cj := fun (_ : Z) (_ : list paper) => lit "{cache}" in
  let cp := fun s : jstr =>
    if jstr_eqb s (lit "{cache}")
    then Some (mk_cache 0 (map (paper_json iso)
                             (fetchArxivPapers dp resp
                                (mk_fetch_config None (Some 100) (Some (lit "submittedDate"))
                                   (Some (lit "descending")) (Some (lit "feed.xml"))))))
    else None in
  let fs0 : fsys := {[ lit "/srv/Users/takeshiiijima/github/claude-desktop-mcp/.cache" := Dir ]} in
  let r0 := arxiv_fetch ds dp resp rss (lit "/srv") (lit "/out") cj cp 0 args fs0 in
  loadFromCache (lit "/srv") cp 0 fs0 = None
  /\ snd (fst r0) = false
  /\ snd r0 !! fs_key (lit "/srv") (lit "/out/feed.xml") = Some (File (utf8_encode (lit "<rss/>")))
  /\ snd r0 !! fs_key (lit "/srv") cache_file_path = Some (File (utf8_encode (lit "{cache}"))).
Proof.
  intros iso ds dp resp rss args cj cp fs0 r0.
  split; [vm_compute; reflexivity | split; [vm_compute; reflexivity |]].
  destruct (arxiv_fetch_writes_feed ds dp resp rss (lit "/srv") (lit "/out") cj cp 0 args fs0
              (snd r0) (fst (fst r0)) ltac:(vm_compute; reflexivity) ltac:(vm_compute; reflexivity))
    as (_ & items & _ & _ & Hout & Hcache).
  split; [exact Hout |].
  exact (Hcache ltac:(vm_compute; intros Heq; discriminate Heq)).
Defined.

Lemma arxiv_fetch_fails_within_cache_lifetime_witness :
  let iso := fun _ : Z => lit "2024-01-01T00:00:00.000Z" in
  let ds := fun _ : Z => lit "Mon Jan 01 2024" in
  let dp := fun _ : jstr => Some 0 in
  let resp := fun _ : jstr =>
    (Ok (Some (One (mk_entry (lit "http://arxiv.org/abs/2401.00001v1") (lit "T") (lit "S")
                      (lit "2024-01-01T00:00:00Z") (lit "2024-01-01T00:00:00Z")
                      (One (mk_author (lit "A"))) (One (mk_category (lit "cs.AI")))
                      (One (mk_link (Some (lit "pdf")) (Some (lit "http://arxiv.org/pdf/2401.00001v1")))))))
     : exc (option (one_or_many xml_entry))) in
  let rss := fun (_ : Z) (_ : list feed_item) => lit "<rss/>" in
  let args := mk_fetch_args None 100 (lit "submittedDate") (lit "descending") (lit "feed.xml") in
  let cj := fun (_ : Z) (_ : list paper) => lit "{cache}" in
  let cp := fun s : jstr =>
    if jstr_eqb s (lit "{cache}")
    then Some (mk_cache 0 (map (paper_json iso)
                             (fetchArxivPapers dp resp
                                (mk_fetch_config None (Some 100) (Some (lit "submittedDate"))
                                   (Some (lit "descending")) (Some (lit "feed.xml"))))))
    else None in
  let fs0 : fsys := {[ lit "/srv/Users/takeshiiijima/github/claude-desktop-mcp/.cache" := Dir ]} in
  let r0 := arxiv_fetch ds dp resp rss (lit "/srv") (lit "/out") cj cp 0 args fs0 in
  snd (fst r0) = false
  /\ fst (arxiv_fetch ds dp resp rss (lit "/srv") (lit "/out") cj cp 60000 args (snd r0))
     = (lit "Error: paper.published.toDateString is not a function", true).
Proof.
  intros iso ds dp resp rss args cj cp fs0 r0.
  split; [vm_compute; reflexivity |].
  destruct (arxiv_fetch_fails_within_cache_lifetime iso ds dp resp rss (lit "/srv") (lit "/out")
              cj cp 0 60000 args args fs0 (snd r0) (fst (fst r0))
              ltac:(vm_compute; reflexivity) ltac:(vm_compute; reflexivity)
              ltac:(vm_compute; intros Heq; discriminate Heq) ltac:(vm_compute; reflexivity)
              ltac:(unfold cacheExpiry; lia)) as [He | He].
  - exact He.
  - exfalso. revert He. vm_compute. intros Heq. discriminate Heq.
Defined.

Lemma arxiv_get_cached_after_fetch_witness :
  let iso := fun _ : Z => lit "2024-01-01T00:00:00.000Z" in
  let ds := fun _ : Z => lit "Mon Jan 01 2024" in
  let dp := fun _ : jstr => Some 0 in
  let resp := fun _ : jstr =>
    (Ok (Some (One (mk_entry (lit "http://arxiv.org/abs/2401.00001v1") (lit "T") (lit "S")
                      (lit "2024-01-01T00:00:00Z") (lit "2024-01-01T00:00:00Z")
                      (One (mk_author (lit "A"))) (One (mk_category (lit "cs.AI")))
                      (One (mk_link (Some (lit "pdf")) (Some (lit "http://arxiv.org/pdf/2401.00001v1")))))))
     : exc (option (one_or_many xml_entry))) in
  let rss := fun (_ : Z) (_ : list feed_item) => lit "<rss/>" in
  let args := mk_fetch_args None 100 (lit "submittedDate") (lit "descending") (lit "feed.xml") in
  let cj := fun (_ : Z) (_ : list paper) => lit "{cache}" in
  let cp := fun s : jstr =>
    if jstr_eqb s (lit "{cache}")
    then Some (mk_cache 0 (map (paper_json iso)
                             (fetchArxivPapers dp resp
                                (mk_fetch_config None (Some 100) (Some (lit "submittedDate"))
                                   (Some (lit "descending")) (Some (lit "feed.xml"))))))
    else None in
  let fs0 : fsys := {[ lit "/srv/Users/takeshiiijima/github/claude-desktop-mcp/.cache" := Dir ]} in
  let r0 := arxiv_fetch ds dp resp rss (lit "/srv") (lit "/out") cj cp 0 args fs0 in
  snd (fst r0) = false
  /\ snd (arxiv_get_cached (lit "/srv") cp 60000 (snd r0)) = false
  /\ arxiv_get_cached (lit "/srv") cp 3600001 (snd r0) = (no_papers_in_cache, true).
Proof.
  intros iso ds dp resp rss args cj cp fs0 r0.
  destruct (arxiv_get_cached_after_fetch iso ds dp resp rss (lit "/srv") (lit "/out") cj cp 0 60000
              args fs0 (snd r0) (fst (fst r0))
              ltac:(vm_compute; reflexivity) ltac:(vm_compute; reflexivity)
              ltac:(vm_compute; intros Heq; discriminate Heq) ltac:(vm_compute; reflexivity))
    as [Hin _].
  destruct (arxiv_get_cached_after_fetch iso ds dp resp rss (lit "/srv") (lit "/out") cj cp 0
              3600001 args fs0 (snd r0) (fst (fst r0))
              ltac:(vm_compute; reflexivity) ltac:(vm_compute; reflexivity)
              ltac:(vm_compute; intros Heq; discriminate Heq) ltac:(vm_compute; reflexivity))
    as [_ Hout].
  split; [vm_compute; reflexivity | split].
  - rewrite Hin by (unfold cacheExpiry; lia). reflexivity.
  - apply Hout. unfold cacheExpiry. lia.
Defined.

Lemma arxiv_fetch_nothing_fetched_witness :
  let ds := fun _ : Z => lit "Mon Jan 01 2024" in
  let dp := fun _ : jstr => Some 0 in
  let resp := fun _ : jstr => (Ok None : exc (option (one_or_many xml_entry))) in
  let rss := fun (_ : Z) (_ : list feed_item) => lit "<rss/>" in
  let args := mk_fetch_args None 100 (lit "submittedDate") (lit "descending") (lit "feed.xml") in
  let cj := fun (_ : Z) (_ : list paper) => lit "{cache}" in
  let cp := fun _ : jstr => (None : option cache_file) in
  let fs0 : fsys := {[ lit "/srv/Users/takeshiiijima/github/claude-desktop-mcp/.cache" := Dir ]} in
  loadFromCache (lit "/srv") cp 0 fs0 = None
  /\ arxiv_fetch ds dp resp rss (lit "/srv") (lit "/out") cj cp 0 args fs0
     = ((lit "No papers fetched from Arxiv", true), fs0).
Proof.
  intros ds dp resp rss args cj cp fs0.
  split; [vm_compute; reflexivity |].
  exact (arxiv_fetch_nothing_fetched ds dp resp rss (lit "/srv") (lit "/out") cj cp 0 args fs0
           ltac:(vm_compute; reflexivity) ltac:(vm_compute; reflexivity)).
Defined.

(** X18.  The cleaning of titles and summaries replaces only the
    two-character sequence backslash-[n]: a text without a backslash is
    only trimmed, so its line breaks stay, and a text that has no white
    space at either end is kept as it is. *)
Theorem clean_text_only_trims (s : jstr) :
  ~ In 92 s ->
  clean_text s = trim s
  /\ (trim_start s = s -> trim_start (rev s) = rev s -> clean_text s = s).
Proof.
  intros Hn. unfold clean_text. rewrite replace_no_backslash by exact Hn.
  split; [reflexivity |]. intros H1 H2. unfold trim. rewrite H1, H2. apply rev_involutive.
Qed.

Lemma clean_text_only_trims_witness :
  ~ In 92 (lit "Deep" ++ [10] ++ lit "Nets") /\ clean_text (lit "Deep" ++ [10] ++ lit "Nets") = lit "Deep" ++ [10] ++ lit "Nets".
Proof.
  assert (Hn : ~ In 92 (lit "Deep" ++ [10] ++ lit "Nets")).
  { vm_compute. intros H. repeat destruct H as [H | H]; try discriminate. exact H. }
  split; [exact Hn |].
  apply (proj2 (clean_text_only_trims _ Hn)); vm_compute; reflexivity.
Defined.

(** ** The shell server *)

Section ShellExtras.

Context {toStr : NumberToString}.


(** X20.  The child is killed only by the timer: then the timeout is
    positive, and a timer event arrived while the call was still
    pending. *)
Theorem run_command_kill_only_by_timer (t : js_number) (evs : list proc_event) :
  ps_killed (run_events t evs) = true ->
  js_positive t = true /\ exists ds rest, evs = ds ++ TimerExpires :: rest
                                          /\ ps_result (run_events t ds) = None.
Proof.
  intros Hk. unfold run_events in Hk.
  destruct (fold_killed_by_timer t evs (proc_init t) eq_refl Hk) as (ds & rest & Hevs & Ht).
  destruct (run_events_timer_pending t ds Ht) as [Hr Hpos].
  split; [exact Hpos |].
  exists ds, rest. auto.
Qed.

(** X21.  As long as no event has come that can settle the call ([close],
    [error], or the timer when the timeout is positive), the call stays
    pending: output events alone never settle it, nor does a timer event
    when the timeout is not positive. *)
Theorem run_command_pending_without_terminal (t : js_number) (evs : list proc_event) :
  existsb (terminal t) evs = false -> ps_result (run_events t evs) = None.
Proof. apply run_events_pending. Qed.

(** X22.  When the [error] event comes while the call is pending, the
    result is the spawn failure message with the error's message, whatever
    follows. *)
Theorem run_command_error_event (t : js_number) (ds rest : list proc_event) (m : jstr) :
  ps_result (run_events t ds) = None ->
  ps_result (run_events t (ds ++ ErrorEvent m :: rest)) = Some (spawn_failure m).
Proof.
  intros Hnone. rewrite run_events_app. cbn [fold_left].
  apply fold_keeps_result. cbn [on_event]. unfold resolve, clear_timer.
  cbn [ps_result]. rewrite Hnone. reflexivity.
Qed.

End ShellExtras.

Lemma run_command_kill_only_by_timer_witness :
  let ts : NumberToString := fun _ => lit "100" in
  ps_killed (@run_events ts (JsFinite (inject_Z 100))
               [StdoutData (lit "x"); TimerExpires; Close None]) = true
  /\ js_positive (JsFinite (inject_Z 100)) = true.
Proof.
  intros ts.
  assert (Hk : ps_killed (@run_events ts (JsFinite (inject_Z 100))
                            [StdoutData (lit "x"); TimerExpires; Close None]) = true)
    by reflexivity.
  split; [exact Hk |].
  exact (proj1 (@run_command_kill_only_by_timer ts (JsFinite (inject_Z 100)) _ Hk)).
Defined.

Lemma run_command_pending_without_terminal_witness :
  let ts : NumberToString := fun _ => lit "0" in
  existsb (terminal (JsFinite 0)) [StdoutData (lit "x"); TimerExpires; StderrData (lit "y")]
    = false
  /\ ps_result (@run_events ts (JsFinite 0)
                  [StdoutData (lit "x"); TimerExpires; StderrData (lit "y")]) = None.
Proof.
  intros ts.
  assert (Hex : existsb (terminal (JsFinite 0))
                  [StdoutData (lit "x"); TimerExpires; StderrData (lit "y")] = false)
    by reflexivity.
  split; [exact Hex |].
  exact (@run_command_pending_without_terminal ts (JsFinite 0) _ Hex).
Defined.

Lemma run_command_error_event_witness :
  let ts : NumberToString := fun _ => lit "100" in
  ps_result (@run_events ts (JsFinite (inject_Z 100)) [StdoutData (lit "x")]) = None
  /\ ps_result (@run_events ts (JsFinite (inject_Z 100))
                  ([StdoutData (lit "x")] ++ ErrorEvent (lit "spawn ENOENT") :: [Close (Some 0)]))
     = Some (spawn_failure (lit "spawn ENOENT")).
Proof.
  intros ts.
  assert (Hnone : ps_result (@run_events ts (JsFinite (inject_Z 100)) [StdoutData (lit "x")])
                  = None) by reflexivity.
  split; [exact Hnone |].
  exact (@run_command_error_event ts (JsFinite (inject_Z 100)) _ [Close (Some 0)]
           (lit "spawn ENOENT") Hnone).
Defined.
